(** * A thread-bound test task runner and the endpoints it drives

    Shallow embedding of [TestTaskRunner], [IntegerSenderImpl] and the
    task-runner binding tests of the mojo bindings (namespace
    [mojo::test]).

    A runner is the record of its members; the lock only protects the
    queue, so every queue operation is one atomic state change.  The
    calls of the embedding are made on the owning thread, where
    [DCHECK(RunsTasksOnCurrentThread())] passes; the thread reference is
    therefore not part of the state. *)

From stdpp Require Import gmap list.

Set Default Proof Using "Type".

(** A [scoped_refptr<TestTaskRunner>] is the address of a runner. *)
Abbreviation RunnerId := nat.

(** [base::TimeDelta], in microseconds. *)
Abbreviation TimeDelta := Z.

(** [base::PlatformThreadRef] of the caller of a posting operation. *)
Abbreviation ThreadRef := nat.

(** Result of a call that may hit [NOTREACHED()]. *)
Inductive Checked (A : Type) : Type :=
  | Done (a : A)
  | Fatal.
Arguments Done {A} a.
Arguments Fatal {A}.

(** How a call of [Run] or [RunOneTask] ends.  [Waiting] is the thread
    parked in [task_ready_.Wait()] on an empty queue: nothing wakes it
    but a post from another thread.  [OutOfFuel] is the bound of the
    model on the number of loop iterations, not a behaviour of the code. *)
Inductive Outcome (A : Type) : Type :=
  | Returned (a : A)
  | Waiting (a : A)
  | OutOfFuel (a : A).
Arguments Returned {A} a.
Arguments Waiting {A} a.
Arguments OutOfFuel {A} a.

Definition state_of {A} (o : Outcome A) : A :=
  match o with Returned a | Waiting a | OutOfFuel a => a end.

Module Runner.
Section WithTasks.

(** [base::Closure]: the tasks of the queue. *)
Context {Task : Type}.

(** The members of [TestTaskRunner].  [task_ready_] is the state of the
    automatic-reset event: [true] when signaled. *)
Record TestTaskRunner : Type := {
  quit_called_ : bool;
  task_ready_ : bool;
  tasks_ : list Task
}.

(** The constructor: no quit, event not signaled, empty queue. *)
Definition new_runner : TestTaskRunner :=
  {| quit_called_ := false; task_ready_ := false; tasks_ := [] |}.

#[export] Instance TestTaskRunner_inhabited : Inhabited TestTaskRunner :=
  populate new_runner.

Definition set_quit_called (b : bool) (r : TestTaskRunner) : TestTaskRunner :=
  {| quit_called_ := b; task_ready_ := task_ready_ r; tasks_ := tasks_ r |}.

Definition set_task_ready (b : bool) (r : TestTaskRunner) : TestTaskRunner :=
  {| quit_called_ := quit_called_ r; task_ready_ := b; tasks_ := tasks_ r |}.

Definition set_tasks (q : list Task) (r : TestTaskRunner) : TestTaskRunner :=
  {| quit_called_ := quit_called_ r; task_ready_ := task_ready_ r; tasks_ := q |}.

(** [PostNonNestableDelayedTask]: [NOTREACHED(); return false;].
    [NOTREACHED()] is fatal where DCHECKs are compiled in and nothing
    elsewhere; [dcheck_is_on] is that build setting. *)
Definition PostNonNestableDelayedTask (dcheck_is_on : bool)
    (task : Task) (delay : TimeDelta) (r : TestTaskRunner)
    : Checked (bool * TestTaskRunner) :=
  if dcheck_is_on then Fatal else Done (false, r).

(** [PostDelayedTask]: [tasks_.push(task)] under the lock,
    [task_ready_.Signal()], [return true].  [delay] is not read. *)
Definition PostDelayedTask (task : Task) (delay : TimeDelta)
    (r : TestTaskRunner) : bool * TestTaskRunner :=
  (true, set_task_ready true (set_tasks (tasks_ r ++ [task]) r)).

(** [Quit]: [quit_called_ = true]. *)
Definition Quit (r : TestTaskRunner) : TestTaskRunner :=
  set_quit_called true r.

End WithTasks.
Arguments TestTaskRunner : clear implicits.
End Runner.
Export Runner.


(** * Several runners and the tasks they run

    The tests hold several runners and let closures reach them through
    [scoped_refptr]s.  [System] is that store: runners by address, the
    rest of the program state ([World]) and two ghost logs, [posted] (every
    task pushed, in push order) and [history] (every task run, in run
    order).  An address never used holds a runner as constructed. *)
Module Sys.
Section WithSemantics.

Context {Task World : Type}.

(** What a running task can do to a runner: the two public operations
    that do not block.  [PostTask] of the base class is
    [PostDelayedTask] with a zero delay. *)
Inductive RunnerCall : Type :=
  | CallPostDelayedTask (r : RunnerId) (task : Task) (delay : TimeDelta)
  | CallQuit (r : RunnerId).

(** [task.Run()] on runner [r]: the calls made on runners while the task
    runs, in the order in which they take the locks, and the new state
    of everything else.  The lock is released while a task runs, so the
    posts of other threads that fall into that time are among these
    calls; nothing is assumed about the list. *)
Context (run_task : RunnerId → Task → World → list RunnerCall * World).

Record System : Type := {
  runners : gmap RunnerId (TestTaskRunner Task);
  world : World;
  posted : list (RunnerId * Task);
  history : list (RunnerId * Task)
}.

Definition fresh (w : World) : System :=
  {| runners := ∅; world := w; posted := []; history := [] |}.

Definition runner (sys : System) (r : RunnerId) : TestTaskRunner Task :=
  runners sys !!! r.

Definition with_runner (r : RunnerId) (x : TestTaskRunner Task)
    (sys : System) : System :=
  {| runners := <[r := x]> (runners sys); world := world sys;
     posted := posted sys; history := history sys |}.

(** [r->PostDelayedTask(from_here, task, delay)], from any thread. *)
Definition post (r : RunnerId) (task : Task) (delay : TimeDelta)
    (sys : System) : System :=
  {| runners := <[r := snd (PostDelayedTask task delay (runner sys r))]> (runners sys);
     world := world sys;
     posted := posted sys ++ [(r, task)];
     history := history sys |}.

(** [r->Quit()]. *)
Definition quit (r : RunnerId) (sys : System) : System :=
  with_runner r (Quit (runner sys r)) sys.

Definition apply_call (sys : System) (c : RunnerCall) : System :=
  match c with
  | CallPostDelayedTask r task delay => post r task delay sys
  | CallQuit r => quit r sys
  end.

Definition apply_calls (calls : list RunnerCall) (sys : System) : System :=
  fold_left apply_call calls sys.

(** [task.Run()] with the lock released, the task already popped. *)
Definition exec (r : RunnerId) (task : Task) (sys : System) : System :=
  let '(calls, w) := run_task r task (world sys) in
  apply_calls calls
    {| runners := runners sys; world := w; posted := posted sys;
       history := history sys ++ [(r, task)] |}.

(** [auto task = tasks_.front(); tasks_.pop();] and, the lock released,
    [task.Run()]: [task] is the front of [r]'s queue and [rest] what is
    behind it. *)
Definition run_front (r : RunnerId) (task : Task) (rest : list Task)
    (sys : System) : System :=
  exec r task (with_runner r (set_tasks rest (runner sys r)) sys).

(** The body of [Run] after [quit_called_ = false].  One unit of fuel is
    one test of [tasks_.empty()]: either an iteration of the inner
    [while] (front, pop, run with the lock released, return when
    [quit_called_]) or its exit into [task_ready_.Wait()], which returns
    at once when the event is signaled (resetting it) and parks the
    thread otherwise. *)
Fixpoint Run_from (fuel : nat) (r : RunnerId) (sys : System) : Outcome System :=
  match fuel with
  | O => OutOfFuel sys
  | S fuel' =>
      match tasks_ (runner sys r) with
      | task :: rest =>
          let sys' := run_front r task rest sys in
          if quit_called_ (runner sys' r) then Returned sys'
          else Run_from fuel' r sys'
      | [] =>
          if task_ready_ (runner sys r)
          then Run_from fuel' r (with_runner r (set_task_ready false (runner sys r)) sys)
          else Waiting sys
      end
  end.

(** [quit_called_ = false;], the first statement of [Run]. *)
Definition clear_quit (r : RunnerId) (sys : System) : System :=
  with_runner r (set_quit_called false (runner sys r)) sys.

(** [Run]. *)
Definition Run (fuel : nat) (r : RunnerId) (sys : System) : Outcome System :=
  Run_from fuel r (clear_quit r sys).

(** [RunOneTask]: the same loop with [if] for the inner [while] and an
    unconditional [return] after the task. *)
Fixpoint RunOneTask (fuel : nat) (r : RunnerId) (sys : System) : Outcome System :=
  match fuel with
  | O => OutOfFuel sys
  | S fuel' =>
      match tasks_ (runner sys r) with
      | task :: rest => Returned (run_front r task rest sys)
      | [] =>
          if task_ready_ (runner sys r)
          then RunOneTask fuel' r (with_runner r (set_task_ready false (runner sys r)) sys)
          else Waiting sys
      end
  end.

(** The first [n] tasks of [r]'s queue taken and run one after the
    other, the quit flag not looked at: what the inner [while] of [Run]
    does as long as no task quits. *)
Fixpoint run_batch (n : nat) (r : RunnerId) (sys : System) : System :=
  match n with
  | O => sys
  | S n' =>
      match tasks_ (runner sys r) with
      | task :: rest => run_batch n' r (run_front r task rest sys)
      | [] => sys
      end
  end.

(** The tasks of a log that belong to runner [r], in log order. *)
Definition on (r : RunnerId) (log : list (RunnerId * Task)) : list Task :=
  omap (λ p, if decide (p.1 = r) then Some p.2 else None) log.

(** The tasks a call list pushes on [r], and whether it quits [r]. *)
Definition pushes (r : RunnerId) (calls : list RunnerCall) : list Task :=
  omap (λ c, match c with
             | CallPostDelayedTask r' task _ =>
                 if decide (r' = r) then Some task else None
             | CallQuit _ => None
             end) calls.

Definition quits (r : RunnerId) (calls : list RunnerCall) : bool :=
  existsb (λ c, match c with
                | CallQuit r' => bool_decide (r' = r)
                | CallPostDelayedTask _ _ _ => false
                end) calls.

(** Every task pushed on a runner has been run or is still in its
    queue, and in push order. *)
Definition queue_order (sys : System) : Prop :=
  ∀ r, on r (posted sys) = on r (history sys) ++ tasks_ (runner sys r).

(** Operations of a test body or of any thread, for schedules. *)
Inductive Op : Type :=
  | OpPost (thread : ThreadRef) (r : RunnerId) (task : Task) (delay : TimeDelta)
  | OpQuit (r : RunnerId)
  | OpRun (fuel : nat) (r : RunnerId)
  | OpRunOneTask (fuel : nat) (r : RunnerId).

Definition do_op (sys : System) (op : Op) : System :=
  match op with
  | OpPost _ r task delay => post r task delay sys
  | OpQuit r => quit r sys
  | OpRun fuel r => state_of (Run fuel r sys)
  | OpRunOneTask fuel r => state_of (RunOneTask fuel r sys)
  end.

Definition run_ops (ops : list Op) (sys : System) : System :=
  fold_left do_op ops sys.

(** Whether the drain of [r]'s queue finds a task at each of its first
    [n] iterations, the tasks pushed meanwhile included. *)
Fixpoint runs_tasks (n : nat) (r : RunnerId) (sys : System) : bool :=
  match n with
  | O => true
  | S n' =>
      match tasks_ (runner sys r) with
      | task :: rest => runs_tasks n' r (run_front r task rest sys)
      | [] => false
      end
  end.

(** [RunOneTask()] called [n] times in a row, as the tests do; a call
    that does not return ends the sequence. *)
Fixpoint RunOneTask_times (n fuel : nat) (r : RunnerId) (sys : System)
    : Outcome System :=
  match n with
  | O => Returned sys
  | S n' =>
      match RunOneTask fuel r sys with
      | Returned sys' => RunOneTask_times n' fuel r sys'
      | stuck => stuck
      end
  end.




End WithSemantics.
Arguments RunnerCall : clear implicits.
Arguments System : clear implicits.
Arguments Op : clear implicits.
End Sys.
Export Sys.

(** Closures that only call runners: each task is the list of calls it
    makes.  They instantiate the runner layer on its own. *)
Module Script.

#[warnings="-register-all"]
Inductive Script : Type :=
  | Calls (label : nat) (body : list (RunnerCall Script)).

Definition run_script (_ : RunnerId) (task : Script) (w : unit)
    : list (RunnerCall Script) * unit :=
  match task with Calls _ body => (body, w) end.

(** A task that calls [Quit] on runner [r], and one that does nothing. *)
Definition quitter (label : nat) (r : RunnerId) : Script :=
  Calls label [CallQuit r].

Definition idle (label : nat) : Script := Calls label [].

(** Runner 0 with three tasks queued: one that does nothing, one that
    quits runner 0, one that does nothing. *)
Definition three_tasks : System Script unit :=
  post 0 (idle 3) 0 (post 0 (quitter 2 0) 0 (post 0 (idle 1) 0 (fresh tt))).

(** Threads 7 and 8 post to runner 0, one post with a delay, and the
    owner drains the queue with [Run], [RunOneTask] and [Run] again. *)
Definition two_posters : list (Op Script) :=
  [OpPost 7 0 (idle 1) 0; OpPost 8 0 (quitter 2 0) 5; OpRun 4 0;
   OpPost 7 0 (Calls 3 [CallPostDelayedTask 0 (quitter 4 0) 0]) 0;
   OpRunOneTask 4 0; OpRun 4 0].

(** Runner 0 with one task queued that pushes a second task on runner 0. *)
Definition feeder : System Script unit :=
  post 0 (Calls 1 [CallPostDelayedTask 0 (idle 2) 0]) 0 (fresh tt).

(** Runner 0 with [three_tasks] and runner 1 with a task of its own. *)
Definition two_runners : System Script unit :=
  post 1 (idle 9) 0 three_tasks.

End Script.

(** A task that pushes itself again on the runner that runs it. *)
Module Ticker.

Inductive Tick : Type := tick.

Definition run_tick (r : RunnerId) (task : Tick) (w : unit)
    : list (RunnerCall Tick) * unit :=
  ([CallPostDelayedTask r tick 0], w).

Definition ticking : System Tick unit := post 0 tick 0 (fresh tt).

End Ticker.

(** * [IntegerSenderImpl] *)
Module Sender.
Section WithCallbacks.

(** [EchoCallback] and the body of an [EchoHandler]. *)
Context {EchoCallback Handler : Type}.

(** [echo_handler_]: [None] is the null callback. *)
Record IntegerSenderImpl : Type := {
  echo_handler_ : option Handler
}.

(** The calls [Echo] makes itself, in order. *)
Inductive Invocation : Type :=
  | InvokeCallback (callback : EchoCallback) (value : Z)
  | InvokeHandler (handler : Handler) (value : Z) (callback : EchoCallback).

Definition set_echo_handler (handler : option Handler)
    (impl : IntegerSenderImpl) : IntegerSenderImpl :=
  {| echo_handler_ := handler |}.

(** [Echo]: [callback.Run(value)] when [echo_handler_.is_null()], else
    [echo_handler_.Run(value, callback)]. *)
Definition Echo (impl : IntegerSenderImpl) (value : Z)
    (callback : EchoCallback) : list Invocation :=
  match echo_handler_ impl with
  | None => [InvokeCallback callback value]
  | Some handler => [InvokeHandler handler value callback]
  end.

(** How many times a trace runs a callback directly. *)
Definition callback_runs (trace : list Invocation) : nat :=
  length (List.filter
            (λ i, match i with InvokeCallback _ _ => true | _ => false end)
            trace).

End WithCallbacks.
Arguments IntegerSenderImpl : clear implicits.
Arguments Invocation : clear implicits.
End Sender.
Export Sender.

(** * Endpoints over task runners

    The bindings themselves ([Binding], [AssociatedBinding],
    [InterfacePtr], [AssociatedInterfacePtr] and the router that
    multiplexes associated interfaces over the master's message pipe) are
    not among the sources; only the tests that drive them are.  This module
    models them from the specification, in the reading under which the
    tests of the fixtures pass as written. *)
Module Mojo.

Abbreviation EpId := nat.

(** The [bool] locals of the test bodies, captured by reference. *)
Inductive Flag : Type :=
  | echo_called
  | echo_replied
  | connection_error_called
  | sender_impl_error
  | connection_impl_error
  | connection_ptr_error
  | sender_ptr_error.

#[export] Instance Flag_eq_dec : EqDecision Flag.
Proof. solve_decision. Defined.

(** The statements of the lambdas of the tests. *)
Inductive Stmt : Type :=
  | ExpectEq (expected : Z)        (* EXPECT_EQ(expected, value) *)
  | SetFlag (f : Flag)             (* f = true *)
  | RunCallback                    (* callback.Run(value) *)
  | QuitRunner (r : RunnerId).     (* r->Quit() *)

#[export] Instance Stmt_eq_dec : EqDecision Stmt.
Proof. solve_decision. Defined.

Definition Closure : Type := list Stmt.

(** How many times a lambda runs its callback. *)
Definition callbacks_in (body : Closure) : nat :=
  length (filter (λ s, s = RunCallback) body).

(** Modelled from the spec: the callback the bindings hand to [Echo];
    running it sends the reply of request [request_id] from endpoint
    [ep]. *)
Inductive Responder : Type :=
  | Respond (ep : EpId) (request_id : nat).

Inductive Message : Type :=
  | EchoRequest (request_id : nat) (value : Z)
  | EchoResponse (request_id : nat) (value : Z).

(** Modelled from the spec: the tasks the bindings post.  [Forward] is
    the receive step on the master's runner, [Deliver] the final
    delivery on the endpoint's own runner, [NotifyError] the scheduled
    connection-error handler. *)
Inductive Task : Type :=
  | Forward (dst : EpId) (m : Message)
  | Deliver (dst : EpId) (m : Message)
  | NotifyError (ep : EpId).

#[export] Instance Message_eq_dec : EqDecision Message.
Proof. solve_decision. Defined.

#[export] Instance Task_eq_dec : EqDecision Task.
Proof. solve_decision. Defined.


(** Modelled from the spec: an Endpoint (section 3): its bound runner,
    its place in the pair (a master lists its associated children, a
    child names its master), the opposite side, the [closed] flag, the
    registered handlers and the Pending Calls. *)
Record Endpoint : Type := {
  ep_runner : RunnerId;
  ep_master : option EpId;
  ep_children : list EpId;
  ep_peer : EpId;
  ep_closed : bool;
  ep_impl : option (IntegerSenderImpl Closure);
  ep_error_handler : option Closure;
  ep_pending : gmap nat Closure;
  ep_next_id : nat
}.

(** An address that holds no endpoint reads as a closed, inert one. *)
Definition inert : Endpoint :=
  {| ep_runner := 0; ep_master := None; ep_children := []; ep_peer := 0;
     ep_closed := true; ep_impl := None; ep_error_handler := None;
     ep_pending := ∅; ep_next_id := 0 |}.

#[export] Instance Endpoint_inhabited : Inhabited Endpoint := populate inert.

(** Ghost log of the handlers the bindings ran, with the runner that ran
    them. *)
Inductive Event : Type :=
  | EchoDispatched (ep : EpId) (value : Z) (on_runner : RunnerId)
  | ReplyDispatched (ep : EpId) (value : Z) (on_runner : RunnerId)
  | ErrorDispatched (ep : EpId) (on_runner : RunnerId).

#[export] Instance Event_eq_dec : EqDecision Event.
Proof. solve_decision. Defined.

Record World : Type := {
  endpoints : gmap EpId Endpoint;
  flags : list Flag;
  failures : nat;
  events : list Event
}.

Definition endpoint (w : World) (ep : EpId) : Endpoint := endpoints w !!! ep.

Definition with_endpoint (ep : EpId) (e : Endpoint) (w : World) : World :=
  {| endpoints := <[ep := e]> (endpoints w); flags := flags w;
     failures := failures w; events := events w |}.

Definition log (ev : Event) (w : World) : World :=
  {| endpoints := endpoints w; flags := flags w;
     failures := failures w; events := events w ++ [ev] |}.

Definition set_flag (f : Flag) (w : World) : World :=
  {| endpoints := endpoints w; flags := flags w ++ [f];
     failures := failures w; events := events w |}.

Definition fail (w : World) : World :=
  {| endpoints := endpoints w; flags := flags w;
     failures := S (failures w); events := events w |}.

Definition flag_set (f : Flag) (w : World) : bool := bool_decide (f ∈ flags w).

Definition set_closed (e : Endpoint) : Endpoint :=
  {| ep_runner := ep_runner e; ep_master := ep_master e;
     ep_children := ep_children e; ep_peer := ep_peer e;
     ep_closed := true; ep_impl := ep_impl e;
     ep_error_handler := ep_error_handler e;
     ep_pending := ∅; ep_next_id := ep_next_id e |}.

Definition set_pending (p : gmap nat Closure) (next : nat) (e : Endpoint) : Endpoint :=
  {| ep_runner := ep_runner e; ep_master := ep_master e;
     ep_children := ep_children e; ep_peer := ep_peer e;
     ep_closed := ep_closed e; ep_impl := ep_impl e;
     ep_error_handler := ep_error_handler e;
     ep_pending := p; ep_next_id := next |}.

Definition set_impl (i : option (IntegerSenderImpl Closure)) (e : Endpoint) : Endpoint :=
  {| ep_runner := ep_runner e; ep_master := ep_master e;
     ep_children := ep_children e; ep_peer := ep_peer e;
     ep_closed := ep_closed e; ep_impl := i;
     ep_error_handler := ep_error_handler e;
     ep_pending := ep_pending e; ep_next_id := ep_next_id e |}.

Definition set_error_handler (h : option Closure) (e : Endpoint) : Endpoint :=
  {| ep_runner := ep_runner e; ep_master := ep_master e;
     ep_children := ep_children e; ep_peer := ep_peer e;
     ep_closed := ep_closed e; ep_impl := ep_impl e;
     ep_error_handler := h;
     ep_pending := ep_pending e; ep_next_id := ep_next_id e |}.

(** Modelled from the spec: the runner a message for [dst] arrives on
    first: the runner of [dst]'s master ("arrives at the master
    endpoint's executor first"), [dst]'s own when it is a master. *)
Definition route (w : World) (dst : EpId) : RunnerId :=
  match ep_master (endpoint w dst) with
  | Some m => ep_runner (endpoint w m)
  | None => ep_runner (endpoint w dst)
  end.

(** Modelled from the spec: the send step.  The message leaves from
    endpoint [from] and a forwarding task for the opposite side is posted
    on the runner it arrives on.  The tests run no task on the caller's
    runner before the request is delivered, so the send is part of the
    call and not a task of its own. *)
Definition send (w : World) (from : EpId) (m : Message) : list (RunnerCall Task) :=
  let dst := ep_peer (endpoint w from) in
  [CallPostDelayedTask (route w dst) (Forward dst m) 0].

(** Modelled from the spec: running the responder.  A closed endpoint
    sends nothing. *)
Definition respond (w : World) (callback : Responder) (value : Z)
    : list (RunnerCall Task) :=
  match callback with
  | Respond ep request_id =>
      if ep_closed (endpoint w ep) then []
      else send w ep (EchoResponse request_id value)
  end.

(** One statement of a lambda, with its [value] argument and, for an
    echo handler, its [callback] argument. *)
Definition run_stmt (value : Z) (callback : option Responder) (s : Stmt)
    (w : World) : list (RunnerCall Task) * World :=
  match s with
  | ExpectEq expected => ([], if decide (expected = value) then w else fail w)
  | SetFlag f => ([], set_flag f w)
  | RunCallback =>
      (match callback with Some cb => respond w cb value | None => [] end, w)
  | QuitRunner r => ([CallQuit r], w)
  end.

Fixpoint run_closure (value : Z) (callback : option Responder)
    (body : Closure) (w : World) : list (RunnerCall Task) * World :=
  match body with
  | [] => ([], w)
  | s :: rest =>
      let '(calls1, w1) := run_stmt value callback s w in
      let '(calls2, w2) := run_closure value callback rest w1 in
      (calls1 ++ calls2, w2)
  end.

(** What the calls [Echo] makes do. *)
Definition run_invocation (i : Invocation Responder Closure) (w : World)
    : list (RunnerCall Task) * World :=
  match i with
  | InvokeCallback callback value => (respond w callback value, w)
  | InvokeHandler handler value callback =>
      run_closure value (Some callback) handler w
  end.

Fixpoint run_invocations (trace : list (Invocation Responder Closure))
    (w : World) : list (RunnerCall Task) * World :=
  match trace with
  | [] => ([], w)
  | i :: rest =>
      let '(calls1, w1) := run_invocation i w in
      let '(calls2, w2) := run_invocations rest w1 in
      (calls1 ++ calls2, w2)
  end.

(** Modelled from the spec: final delivery on runner [on_runner].  A
    closed endpoint drops the message; a request goes to the registered
    implementation's [Echo] with a fresh responder; a response consumes
    its Pending Call and runs the stored callback. *)
Definition dispatch (on_runner : RunnerId) (dst : EpId) (m : Message)
    (w : World) : list (RunnerCall Task) * World :=
  let e := endpoint w dst in
  if ep_closed e then ([], w)
  else
    match m with
    | EchoRequest request_id value =>
        match ep_impl e with
        | None => ([], w)
        | Some impl =>
            run_invocations (Echo impl value (Respond dst request_id))
              (log (EchoDispatched dst value on_runner) w)
        end
    | EchoResponse request_id value =>
        match ep_pending e !! request_id with
        | None => ([], w)
        | Some callback =>
            run_closure value None callback
              (log (ReplyDispatched dst value on_runner)
                 (with_endpoint dst
                    (set_pending (delete request_id (ep_pending e)) (ep_next_id e) e)
                    w))
        end
    end.

(** Modelled from the spec: what the posted tasks do.  The receive step
    on the master's runner re-posts a message of an associated endpoint
    on that endpoint's runner and hands the master's own messages over
    at once; the error task runs the registered connection-error
    handler. *)
Definition run_task (on_runner : RunnerId) (task : Task) (w : World)
    : list (RunnerCall Task) * World :=
  match task with
  | Forward dst m =>
      match ep_master (endpoint w dst) with
      | Some _ => ([CallPostDelayedTask (ep_runner (endpoint w dst)) (Deliver dst m) 0], w)
      | None => dispatch on_runner dst m w
      end
  | Deliver dst m => dispatch on_runner dst m w
  | NotifyError ep =>
      match ep_error_handler (endpoint w ep) with
      | None => ([], w)
      | Some handler =>
          run_closure 0 None handler (log (ErrorDispatched ep on_runner) w)
      end
  end.

Abbreviation System := (Sys.System Task World).

Definition with_world (w : World) (sys : System) : System :=
  {| runners := runners sys; world := w; posted := posted sys;
     history := history sys |}.

(** Modelled from the spec: [Call(request, replyCallback)] (section 4.2)
    for the [Echo] method.  Calling on a closed endpoint is fatal; a
    non-null callback is registered as a Pending Call under a fresh
    identifier before the message is sent. *)
Definition Call (a : EpId) (value : Z) (callback : option Closure)
    (sys : System) : Checked System :=
  let e := endpoint (world sys) a in
  if ep_closed e then Fatal
  else
    let request_id := ep_next_id e in
    let pending :=
      match callback with
      | Some cb => <[request_id := cb]> (ep_pending e)
      | None => ep_pending e
      end in
    let w := with_endpoint a (set_pending pending (S request_id) e) (world sys) in
    Done (apply_calls (send w a (EchoRequest request_id value)) (with_world w sys)).

(** Modelled from the spec: the endpoints a [Close] of [ep] reaches
    (sections 4.2 and 4.3): [ep] and the opposite side, and for a master
    the associated endpoints of both. *)
Definition connection_group (w : World) (ep : EpId) : list EpId :=
  let e := endpoint w ep in
  match ep_master e with
  | Some _ => [ep; ep_peer e]
  | None =>
      (ep :: ep_children e)
        ++ ep_peer e :: ep_children (endpoint w (ep_peer e))
  end.

(** Closing one endpoint: nothing when it is closed already; else it
    becomes closed, its Pending Calls are dropped and its error handler
    is scheduled on its own runner. *)
Definition close_one (acc : list (RunnerCall Task) * World) (ep : EpId)
    : list (RunnerCall Task) * World :=
  let '(calls, w) := acc in
  let e := endpoint w ep in
  if ep_closed e then (calls, w)
  else (calls ++ [CallPostDelayedTask (ep_runner e) (NotifyError ep) 0],
        with_endpoint ep (set_closed e) w).

Definition close_all (eps : list EpId) (w : World) : list (RunnerCall Task) * World :=
  fold_left close_one eps ([], w).

(** Modelled from the spec: [Close()] (section 4.2). *)
Definition Close (ep : EpId) (sys : System) : System :=
  let '(calls, w) := close_all (connection_group (world sys) ep) (world sys) in
  apply_calls calls (with_world w sys).

(** [set_echo_handler] on the implementation bound to [ep]. *)
Definition set_echo_handler_of (ep : EpId) (handler : Closure) (sys : System) : System :=
  let e := endpoint (world sys) ep in
  with_world
    (with_endpoint ep (set_impl (set_echo_handler (Some handler) <$> ep_impl e) e) (world sys))
    sys.

(** Modelled from the spec: [SetConnectionErrorHandler(handler)]. *)
Definition set_connection_error_handler (ep : EpId) (handler : Closure)
    (sys : System) : System :=
  let e := endpoint (world sys) ep in
  with_world (with_endpoint ep (set_error_handler (Some handler) e) (world sys)) sys.

Abbreviation Run := (Sys.Run run_task).
Abbreviation RunOneTask := (Sys.RunOneTask run_task).

(** Two worlds whose endpoints are bound alike: same runners, same
    pairing, same [closed] flags, same implementations and handlers. *)
Definition same_bindings (w w' : World) : Prop :=
  ∀ ep,
    ep_runner (endpoint w' ep) = ep_runner (endpoint w ep)
    ∧ ep_master (endpoint w' ep) = ep_master (endpoint w ep)
    ∧ ep_children (endpoint w' ep) = ep_children (endpoint w ep)
    ∧ ep_peer (endpoint w' ep) = ep_peer (endpoint w ep)
    ∧ ep_closed (endpoint w' ep) = ep_closed (endpoint w ep)
    ∧ ep_impl (endpoint w' ep) = ep_impl (endpoint w ep)
    ∧ ep_error_handler (endpoint w' ep) = ep_error_handler (endpoint w ep).

(** [a] and [b] are the two sides of an associated interface: both
    open, each the opposite side of the other, [a] under master [ma],
    [b] under master [mb], and [b] bound to the implementation [impl]. *)
Record associated_pair (w : World) (a b ma mb : EpId)
    (impl : IntegerSenderImpl Closure) : Prop := {
  pair_a_open : ep_closed (endpoint w a) = false;
  pair_b_open : ep_closed (endpoint w b) = false;
  pair_a_peer : ep_peer (endpoint w a) = b;
  pair_b_peer : ep_peer (endpoint w b) = a;
  pair_a_master : ep_master (endpoint w a) = Some ma;
  pair_b_master : ep_master (endpoint w b) = Some mb;
  pair_b_impl : ep_impl (endpoint w b) = Some impl
}.

(** No runner has a task queued. *)
Definition quiescent (sys : System) : Prop :=
  ∀ r, tasks_ (runner sys r) = [].

(** [task], on runner [r], is the only task queued anywhere. *)
Definition only_task (r : RunnerId) (task : Task) (sys : System) : Prop :=
  ∀ r', tasks_ (runner sys r') = if decide (r = r') then [task] else [].

(** An implementation that answers each request once: the null echo
    handler of [IntegerSenderImpl], or a lambda that runs its callback
    once. *)
Definition echoes_once (impl : IntegerSenderImpl Closure) : Prop :=
  match echo_handler_ impl with
  | None => True
  | Some handler => callbacks_in handler = 1
  end.

(** ** The test bodies

    A test body is a sequence of calls on the test thread; it yields no
    state when a call never returns (a parked [Run]) or is fatal. *)
Definition returned (o : Outcome System) : option System :=
  match o with Returned sys => Some sys | _ => None end.

Definition called (c : Checked System) : option System :=
  match c with Done sys => Some sys | Fatal => None end.

Definition EXPECT_TRUE (f : Flag) (sys : System) : System :=
  if flag_set f (world sys) then sys else with_world (fail (world sys)) sys.

(** Loop iterations granted to each [Run] and [RunOneTask] of a test. *)
Definition test_fuel : nat := 16.

Definition bound (r : RunnerId) (peer : EpId) (master : option EpId)
    (children : list EpId) (impl : option (IntegerSenderImpl Closure)) : Endpoint :=
  {| ep_runner := r; ep_master := master; ep_children := children;
     ep_peer := peer; ep_closed := false; ep_impl := impl;
     ep_error_handler := None; ep_pending := ∅; ep_next_id := 0 |}.

Module BindTaskRunnerTest.

Definition binding_task_runner_ : RunnerId := 0.
Definition ptr_task_runner_ : RunnerId := 1.

Definition ptr_ : EpId := 0.
(** The binding of [impl_]. *)
Definition impl_ : EpId := 1.

Definition SetUp : System :=
  fresh
    {| endpoints :=
         <[ptr_ := bound ptr_task_runner_ impl_ None [] None]>
         (<[impl_ := bound binding_task_runner_ ptr_ None []
                       (Some {| echo_handler_ := None |})]> ∅);
       flags := []; failures := 0; events := [] |}.

Definition MethodCall : option System :=
  let sys :=
    set_echo_handler_of impl_
      [ExpectEq 1024; SetFlag echo_called; RunCallback;
       QuitRunner binding_task_runner_] SetUp in
  sys ← called (Call ptr_ 1024
                  (Some [ExpectEq 1024; SetFlag echo_replied;
                         QuitRunner ptr_task_runner_]) sys);
  sys ← returned (Run test_fuel binding_task_runner_ sys);
  let sys := EXPECT_TRUE echo_called sys in
  sys ← returned (Run test_fuel ptr_task_runner_ sys);
  Some (EXPECT_TRUE echo_replied sys).

Definition BindingConnectionError : option System :=
  let sys :=
    set_connection_error_handler impl_
      [SetFlag connection_error_called; QuitRunner binding_task_runner_] SetUp in
  let sys := Close ptr_ sys in
  sys ← returned (Run test_fuel binding_task_runner_ sys);
  Some (EXPECT_TRUE connection_error_called sys).

Definition PtrConnectionError : option System :=
  let sys :=
    set_connection_error_handler ptr_
      [SetFlag connection_error_called; QuitRunner ptr_task_runner_] SetUp in
  let sys := Close impl_ sys in
  sys ← returned (Run test_fuel ptr_task_runner_ sys);
  Some (EXPECT_TRUE connection_error_called sys).

End BindTaskRunnerTest.

Module AssociatedBindTaskRunnerTest.

Definition connection_binding_task_runner_ : RunnerId := 0.
Definition connection_ptr_task_runner_ : RunnerId := 1.
Definition sender_binding_task_runner_ : RunnerId := 2.
Definition sender_ptr_task_runner_ : RunnerId := 3.

Definition connection_ptr_ : EpId := 0.
(** The binding of [connection_impl_]. *)
Definition connection_impl_ : EpId := 1.
Definition sender_ptr_ : EpId := 2.
(** The binding of [connection_impl_->sender_impl()]. *)
Definition sender_impl : EpId := 3.

(** The state [SetUp] leaves.  [GetSender] has been served by
    [connection_binding_task_runner_->Run()], which the
    [get_sender_notification_] ended with [Quit()]: that runner keeps
    its quit flag and its signaled event, and [sender_impl_] is bound
    to [sender_binding_task_runner_]. *)
Definition SetUp : System :=
  {| runners :=
       <[connection_binding_task_runner_ :=
           {| quit_called_ := true; task_ready_ := true; tasks_ := [] |}]> ∅;
     world :=
       {| endpoints :=
            <[connection_ptr_ :=
                bound connection_ptr_task_runner_ connection_impl_ None
                  [sender_ptr_] None]>
            (<[connection_impl_ :=
                bound connection_binding_task_runner_ connection_ptr_ None
                  [sender_impl] None]>
            (<[sender_ptr_ :=
                bound sender_ptr_task_runner_ sender_impl
                  (Some connection_ptr_) [] None]>
            (<[sender_impl :=
                bound sender_binding_task_runner_ sender_ptr_
                  (Some connection_impl_) []
                  (Some {| echo_handler_ := None |})]> ∅)));
          flags := []; failures := 0; events := [] |};
     posted := []; history := [] |}.

(** The lambdas of [MethodCall] and the state in which the call is
    made. *)
Definition echo_handler : Closure :=
  [ExpectEq 1024; SetFlag echo_called; RunCallback].

Definition echo_callback : Closure :=
  [ExpectEq 1024; SetFlag echo_replied].

Definition with_echo_handler : System :=
  set_echo_handler_of sender_impl echo_handler SetUp.

Definition MethodCall : option System :=
  sys ← called (Call sender_ptr_ 1024 (Some echo_callback) with_echo_handler);
  sys ← returned (RunOneTask test_fuel connection_binding_task_runner_ sys);
  sys ← returned (RunOneTask test_fuel sender_binding_task_runner_ sys);
  let sys := EXPECT_TRUE echo_called sys in
  sys ← returned (RunOneTask test_fuel connection_ptr_task_runner_ sys);
  sys ← returned (RunOneTask test_fuel sender_ptr_task_runner_ sys);
  Some (EXPECT_TRUE echo_replied sys).

(** The state of [BindingConnectionError] before [connection_ptr_]
    is reset. *)
Definition with_error_handlers : System :=
  set_connection_error_handler sender_ptr_
    [SetFlag sender_ptr_error; QuitRunner sender_ptr_task_runner_]
    (set_connection_error_handler connection_impl_
       [SetFlag connection_impl_error;
        QuitRunner connection_binding_task_runner_]
       (set_connection_error_handler sender_impl
          [SetFlag sender_impl_error; QuitRunner sender_binding_task_runner_]
          SetUp)).

Definition BindingConnectionError : option System :=
  let sys := Close connection_ptr_ with_error_handlers in
  sys ← returned (Run test_fuel sender_ptr_task_runner_ sys);
  let sys := EXPECT_TRUE sender_ptr_error sys in
  sys ← returned (Run test_fuel connection_binding_task_runner_ sys);
  let sys := EXPECT_TRUE connection_impl_error sys in
  sys ← returned (Run test_fuel sender_binding_task_runner_ sys);
  Some (EXPECT_TRUE sender_impl_error sys).

Definition PtrConnectionError : option System :=
  let sys :=
    set_connection_error_handler sender_impl
      [SetFlag sender_impl_error; QuitRunner sender_binding_task_runner_] SetUp in
  let sys :=
    set_connection_error_handler connection_ptr_
      [SetFlag connection_ptr_error;
       QuitRunner connection_ptr_task_runner_] sys in
  let sys :=
    set_connection_error_handler sender_ptr_
      [SetFlag sender_ptr_error; QuitRunner sender_ptr_task_runner_] sys in
  let sys := Close connection_impl_ sys in
  sys ← returned (Run test_fuel sender_binding_task_runner_ sys);
  let sys := EXPECT_TRUE sender_impl_error sys in
  sys ← returned (Run test_fuel connection_ptr_task_runner_ sys);
  let sys := EXPECT_TRUE connection_ptr_error sys in
  sys ← returned (Run test_fuel sender_ptr_task_runner_ sys);
  Some (EXPECT_TRUE sender_ptr_error sys).



End AssociatedBindTaskRunnerTest.

End Mojo.

(** * [IntegerSenderConnectionImpl] *)
Module Connection.

(** An [IntegerSenderAssociatedRequest], by name. *)
Abbreviation Request := nat.

(** [SenderType]: an [IntegerSenderImpl] with the request and the runner
    its [binding_] was built from. *)
Record SenderType : Type := {
  binding_request : Request;
  binding_runner : RunnerId;
  sender : IntegerSenderImpl Mojo.Closure
}.

(** The constructor of [IntegerSenderImpl]: [binding_] from the request
    and the runner, [echo_handler_] left null. *)
Definition new_SenderType (request : Request) (runner : RunnerId) : SenderType :=
  {| binding_request := request; binding_runner := runner;
     sender := {| echo_handler_ := None |} |}.

(** The task that serves a [GetSender] message on the connection's
    runner. *)
Inductive ConnectionTask : Type :=
  | ServeGetSender (sender : Request).

(** A [Closure] as the calls it makes on runners; the lambda of
    [AssociatedBindTaskRunnerTest::SetUp] is one [Quit]. *)
Definition Notification : Type := list (RunnerCall ConnectionTask).

(** The members of [IntegerSenderConnectionImpl] next to [binding_].
    [None] is the empty [unique_ptr] and the null [Closure]. *)
Record IntegerSenderConnectionImpl : Type := {
  sender_impl_ : option SenderType;
  sender_runner_ : RunnerId;
  get_sender_notification_ : option Notification
}.

(** The constructor. *)
Definition new_connection (sender_runner : RunnerId) : IntegerSenderConnectionImpl :=
  {| sender_impl_ := None; sender_runner_ := sender_runner;
     get_sender_notification_ := None |}.

Definition set_get_sender_notification (notification : option Notification)
    (c : IntegerSenderConnectionImpl) : IntegerSenderConnectionImpl :=
  {| sender_impl_ := sender_impl_ c; sender_runner_ := sender_runner_ c;
     get_sender_notification_ := notification |}.

(** [GetSender]: [sender_impl_.reset(new SenderType(std::move(sender),
    sender_runner_))], then [get_sender_notification_.Run()]: the new
    state and the closure that is run. *)
Definition GetSender (sender : Request) (c : IntegerSenderConnectionImpl)
    : IntegerSenderConnectionImpl * option Notification :=
  ({| sender_impl_ := Some (new_SenderType sender (sender_runner_ c));
      sender_runner_ := sender_runner_ c;
      get_sender_notification_ := get_sender_notification_ c |},
   get_sender_notification_ c).

(** [AsyncGetSender]: [NOTREACHED()]. *)
Definition AsyncGetSender (dcheck_is_on : bool) (c : IntegerSenderConnectionImpl)
    : Checked IntegerSenderConnectionImpl :=
  if dcheck_is_on then Fatal else Done c.

(** [sender_impl()]. *)
Definition sender_impl (c : IntegerSenderConnectionImpl) : option SenderType :=
  sender_impl_ c.

Section WithNullClosure.

(** What [Run()] of a null [Closure] does to the runners; the class is
    not among the sources. *)
Context (null_run : list (RunnerCall ConnectionTask)).

Definition run_connection_task (_ : RunnerId) (task : ConnectionTask)
    (c : IntegerSenderConnectionImpl)
    : list (RunnerCall ConnectionTask) * IntegerSenderConnectionImpl :=
  match task with
  | ServeGetSender request =>
      let '(c', notification) := GetSender request c in
      (match notification with Some calls => calls | None => null_run end, c')
  end.

End WithNullClosure.

(** [connection_binding_task_runner_] with the [GetSender] of request 7
    queued, a task behind it, and the notification of [SetUp] set. *)
Definition awaiting_sender : System ConnectionTask IntegerSenderConnectionImpl :=
  post 0 (ServeGetSender 8) 0
    (post 0 (ServeGetSender 7) 0
       (fresh (set_get_sender_notification (Some [CallQuit 0]) (new_connection 2)))).

End Connection.


(** * Facts about the runner *)
Module RunnerFacts.
Section WithSemantics.

Context {Task World : Type}.
Context (run_task : RunnerId → Task → World → list (RunnerCall Task) * World).

Implicit Types (sys : System Task World) (r : RunnerId) (task : Task).
Implicit Types (calls : list (RunnerCall Task)).

Lemma runner_with_runner sys r r' x :
  runner (with_runner r x sys) r' = if decide (r = r') then x else runner sys r'.
Proof.
  unfold runner, with_runner; simpl. case_decide as E.
  - subst. by rewrite lookup_total_insert_eq.
  - by rewrite lookup_total_insert_ne.
Qed.

Lemma runner_with_runner_eq sys r x : runner (with_runner r x sys) r = x.
Proof. rewrite runner_with_runner. by case_decide. Qed.

Lemma with_runner_twice sys r x y :
  with_runner r x (with_runner r y sys) = with_runner r x sys.
Proof. unfold with_runner; simpl. by rewrite insert_insert_eq. Qed.

Lemma runner_post sys r r' task delay :
  runner (post r task delay sys) r' =
    if decide (r = r') then snd (PostDelayedTask task delay (runner sys r))
    else runner sys r'.
Proof.
  unfold runner, post; simpl. case_decide as E.
  - subst. by rewrite lookup_total_insert_eq.
  - by rewrite lookup_total_insert_ne.
Qed.

(** A call list touches a queue only by pushing at its back. *)
Lemma tasks_apply_calls calls sys r :
  tasks_ (runner (apply_calls calls sys) r) = tasks_ (runner sys r) ++ pushes r calls.
Proof.
  revert sys. induction calls as [|c calls IH]; intros sys; simpl.
  - by rewrite app_nil_r.
  - unfold apply_calls in *. simpl. rewrite IH. destruct c as [r' task delay|r']; simpl.
    + rewrite runner_post. case_decide as E; simpl.
      * subst. by rewrite <- app_assoc.
      * done.
    + unfold quit. rewrite runner_with_runner. by case_decide; subst.
Qed.

(** The quit flag is only ever raised by a [Quit] among the calls. *)
Lemma quit_called_apply_calls calls sys r :
  quit_called_ (runner (apply_calls calls sys) r) =
    quit_called_ (runner sys r) || quits r calls.
Proof.
  revert sys. induction calls as [|c calls IH]; intros sys; simpl.
  - by rewrite orb_false_r.
  - unfold apply_calls in *. simpl. rewrite IH. destruct c as [r' task delay|r']; simpl.
    + rewrite runner_post. by case_decide; subst.
    + unfold quit. rewrite runner_with_runner. case_decide as E; simpl.
      * subst. rewrite bool_decide_eq_true_2 by done. by rewrite orb_true_r.
      * rewrite bool_decide_eq_false_2 by done. done.
Qed.

Lemma world_apply_calls calls sys : world (apply_calls calls sys) = world sys.
Proof.
  revert sys. induction calls as [|c calls IH]; intros sys; [done|].
  unfold apply_calls in *. simpl. rewrite IH. by destruct c.
Qed.

Lemma history_apply_calls calls sys : history (apply_calls calls sys) = history sys.
Proof.
  revert sys. induction calls as [|c calls IH]; intros sys; [done|].
  unfold apply_calls in *. simpl. rewrite IH. by destruct c.
Qed.

Lemma on_app r (l1 l2 : list (RunnerId * Task)) : on r (l1 ++ l2) = on r l1 ++ on r l2.
Proof. unfold on. apply omap_app. Qed.

Lemma posted_apply_calls calls sys r :
  on r (posted (apply_calls calls sys)) = on r (posted sys) ++ pushes r calls.
Proof.
  revert sys. induction calls as [|c calls IH]; intros sys; simpl.
  - by rewrite app_nil_r.
  - unfold apply_calls in *. simpl. rewrite IH. destruct c as [r' task delay|r']; simpl.
    + rewrite on_app. simpl. unfold on at 2. simpl.
      case_decide; simpl; by rewrite <- ?app_assoc, ?app_nil_r.
    + done.
Qed.

Abbreviation ran := (run_front run_task).

Lemma tasks_ran r r' task rest sys :
  tasks_ (runner (ran r task rest sys) r') =
    (if decide (r = r') then rest else tasks_ (runner sys r'))
      ++ pushes r' (run_task r task (world sys)).1.
Proof.
  unfold run_front, exec. simpl. destruct (run_task r task (world sys)) as [calls w].
  rewrite tasks_apply_calls. simpl. f_equal.
  unfold runner at 1. simpl. case_decide as E.
  - subst. by rewrite lookup_total_insert_eq.
  - by rewrite lookup_total_insert_ne.
Qed.

Lemma quit_called_ran r task rest sys :
  quit_called_ (runner (ran r task rest sys) r) =
    quit_called_ (runner sys r) || quits r (run_task r task (world sys)).1.
Proof.
  unfold run_front, exec. simpl. destruct (run_task r task (world sys)) as [calls w].
  rewrite quit_called_apply_calls. simpl. f_equal.
  unfold runner at 1. simpl. by rewrite lookup_total_insert_eq.
Qed.

Lemma history_ran r task rest sys :
  history (ran r task rest sys) = history sys ++ [(r, task)].
Proof.
  unfold run_front, exec. simpl. destruct (run_task r task (world sys)) as [calls w].
  by rewrite history_apply_calls.
Qed.

Lemma world_ran r task rest sys :
  world (ran r task rest sys) = (run_task r task (world sys)).2.
Proof.
  unfold run_front, exec. simpl. destruct (run_task r task (world sys)) as [calls w].
  by rewrite world_apply_calls.
Qed.

Lemma posted_ran r r' task rest sys :
  on r' (posted (ran r task rest sys)) =
    on r' (posted sys) ++ pushes r' (run_task r task (world sys)).1.
Proof.
  unfold run_front, exec. simpl. destruct (run_task r task (world sys)) as [calls w].
  by rewrite posted_apply_calls.
Qed.

(** ** The drain of [Run] *)

Lemma quit_called_ran_mono r task rest sys :
  quit_called_ (runner sys r) = true →
  quit_called_ (runner (ran r task rest sys) r) = true.
Proof. intros H. by rewrite quit_called_ran, H. Qed.

Lemma quit_called_run_batch_mono n r sys :
  quit_called_ (runner sys r) = true →
  quit_called_ (runner (run_batch run_task n r sys) r) = true.
Proof.
  revert sys. induction n as [|n IH]; intros sys H; simpl; [done|].
  destruct (tasks_ (runner sys r)) as [|task rest]; [done|].
  by apply IH, quit_called_ran_mono.
Qed.

(** Running a prefix of the queue leaves what was behind it in place,
    ahead of what the prefix pushed. *)
Lemma run_batch_prefix (pre : list Task) r sys (q : list Task) :
  tasks_ (runner sys r) = pre ++ q →
  ∃ new,
    tasks_ (runner (run_batch run_task (length pre) r sys) r) = q ++ new
    ∧ history (run_batch run_task (length pre) r sys)
        = history sys ++ ((λ t, (r, t)) <$> pre).
Proof.
  revert sys q. induction pre as [|task pre IH]; intros sys q Hq; simpl.
  - exists []. by rewrite !app_nil_r.
  - simpl in Hq. rewrite Hq.
    destruct (IH (ran r task (pre ++ q) sys)
                (q ++ pushes r (run_task r task (world sys)).1)) as (new & Hn & Hh).
    { rewrite tasks_ran, decide_True by done. by rewrite app_assoc. }
    exists (pushes r (run_task r task (world sys)).1 ++ new). split.
    + by rewrite Hn, app_assoc.
    + by rewrite Hh, history_ran, <- app_assoc.
Qed.

(** As long as no task quits, [Run] is the plain drain. *)
Lemma Run_from_run_batch (pre : list Task) fuel r sys (q : list Task) :
  tasks_ (runner sys r) = pre ++ q →
  quit_called_ (runner (run_batch run_task (length pre) r sys) r) = false →
  Run_from run_task (length pre + fuel) r sys =
    Run_from run_task fuel r (run_batch run_task (length pre) r sys).
Proof.
  revert sys q. induction pre as [|task pre IH]; intros sys q Hq Hquiet; [done|].
  simpl in *. rewrite Hq in *.
  destruct (quit_called_ (runner (ran r task (pre ++ q) sys) r)) eqn:E.
  - by rewrite quit_called_run_batch_mono in Hquiet.
  - apply (IH _ (q ++ pushes r (run_task r task (world sys)).1)); [|done].
    rewrite tasks_ran, decide_True by done. by rewrite app_assoc.
Qed.

Lemma Run_from_front_quits fuel r sys task rest :
  tasks_ (runner sys r) = task :: rest →
  quits r (run_task r task (world sys)).1 = true →
  Run_from run_task (S fuel) r sys = Returned (ran r task rest sys).
Proof.
  intros Hq Hquit. simpl. rewrite Hq.
  by rewrite quit_called_ran, Hquit, orb_true_r.
Qed.

Lemma tasks_clear_quit r r' sys :
  tasks_ (runner (clear_quit r sys) r') = tasks_ (runner sys r').
Proof. unfold clear_quit. rewrite runner_with_runner. by case_decide; subst. Qed.

Lemma quit_called_clear_quit r sys :
  quit_called_ (runner (clear_quit r sys) r) = false.
Proof. unfold clear_quit. by rewrite runner_with_runner_eq. Qed.

(** C1, as the code has it: when the tasks [pre] at the front of the
    queue do not quit and the next one, [task], calls [Quit()], [Run]
    returns as soon as [task] has finished.  It has run [pre] and [task]
    and nothing else; the tasks [rest] that were queued behind [task] are
    still in the queue, in their order, ahead of whatever was pushed
    meanwhile. *)
Theorem Run_returns_after_the_quitting_task
    (pre : list Task) task (rest : list Task) fuel r sys :
  tasks_ (runner sys r) = pre ++ task :: rest →
  quit_called_
    (runner (run_batch run_task (length pre) r (clear_quit r sys)) r) = false →
  quits r
    (run_task r task
       (world (run_batch run_task (length pre) r (clear_quit r sys)))).1 = true →
  ∃ sys' new,
    Run run_task (length pre + S fuel) r sys = Returned sys'
    ∧ history sys' = history sys ++ ((λ t, (r, t)) <$> pre) ++ [(r, task)]
    ∧ tasks_ (runner sys' r) = rest ++ new.
Proof.
  intros Hq Hquiet Hquit. unfold Run.
  set (sys0 := clear_quit r sys) in *.
  assert (Hq0 : tasks_ (runner sys0 r) = pre ++ task :: rest)
    by (unfold sys0; by rewrite tasks_clear_quit).
  rewrite (Run_from_run_batch pre (S fuel) r sys0 (task :: rest) Hq0 Hquiet).
  destruct (run_batch_prefix pre r sys0 (task :: rest) Hq0) as (new & Hn & Hh).
  set (mid := run_batch run_task (length pre) r sys0) in *.
  simpl in Hn.
  rewrite (Run_from_front_quits fuel r mid task (rest ++ new) Hn Hquit).
  eexists _, (new ++ pushes r (run_task r task (world mid)).1).
  split; [done|]. split.
  - rewrite history_ran, Hh. unfold sys0, clear_quit. simpl.
    by rewrite <- app_assoc.
  - rewrite tasks_ran, decide_True by done. by rewrite <- app_assoc.
Qed.

(** ** [Run] and the quit flag *)

Lemma clear_quit_quit r sys : clear_quit r (quit r sys) = clear_quit r sys.
Proof.
  unfold clear_quit, quit. rewrite runner_with_runner_eq, with_runner_twice.
  done.
Qed.

Lemma Run_from_Returned fuel r sys sys' :
  quit_called_ (runner sys r) = false →
  Run_from run_task fuel r sys = Returned sys' →
  ∃ mid task rest,
    history sys `prefix_of` history mid
    ∧ tasks_ (runner mid r) = task :: rest
    ∧ quits r (run_task r task (world mid)).1 = true
    ∧ sys' = ran r task rest mid.
Proof.
  revert sys. induction fuel as [|fuel IH]; intros sys Hflag Hrun; [done|].
  simpl in Hrun. destruct (tasks_ (runner sys r)) as [|task rest] eqn:Hq.
  - destruct (task_ready_ (runner sys r)); [|done].
    apply IH in Hrun; [done|]. by rewrite runner_with_runner_eq.
  - destruct (quit_called_ (runner (ran r task rest sys) r)) eqn:E.
    + injection Hrun as <-. exists sys, task, rest. repeat split; [done..|].
      by rewrite quit_called_ran, Hflag in E.
    + apply IH in Hrun as (mid & task' & rest' & Hpre & ?); [|done].
      exists mid, task', rest'. split; [|done].
      etrans; [|exact Hpre]. rewrite history_ran. by apply prefix_app_r.
Qed.

(** C9: [Run] clears the quit flag at entry.  A [Quit()] made before
    [Run] begins changes nothing of what that [Run] does, and a [Run]
    that returns does so right after a task it ran itself, one that
    called [Quit()] on this runner. *)
Theorem Run_clears_quit_at_entry fuel r sys :
  Run run_task fuel r (quit r sys) = Run run_task fuel r sys
  ∧ ∀ sys',
      Run run_task fuel r sys = Returned sys' →
      ∃ mid task rest,
        history sys `prefix_of` history mid
        ∧ tasks_ (runner mid r) = task :: rest
        ∧ quits r (run_task r task (world mid)).1 = true
        ∧ sys' = ran r task rest mid.
Proof.
  split.
  - unfold Run. by rewrite clear_quit_quit.
  - intros sys' Hrun. unfold Run in Hrun.
    apply Run_from_Returned in Hrun; [done|]. apply quit_called_clear_quit.
Qed.

(** ** [RunOneTask] *)

(** C7: on an empty queue [RunOneTask] runs nothing and parks in
    [task_ready_.Wait()] (after at most one stale signal); as soon as a
    task is in the queue it takes the oldest one, runs it and returns.
    The tasks behind it stay in the queue in their order, ahead of what
    the task pushed, and no other queue loses a task. *)
Theorem RunOneTask_runs_the_oldest fuel r sys :
  (tasks_ (runner sys r) = [] →
     ∃ sys', RunOneTask run_task (S (S fuel)) r sys = Waiting sys'
       ∧ tasks_ (runner sys' r) = []
       ∧ history sys' = history sys
       ∧ world sys' = world sys
       ∧ ∀ thread task delay,
           RunOneTask run_task (S fuel) r (do_op run_task sys' (OpPost thread r task delay))
           = Returned (ran r task [] (post r task delay sys')))
  ∧ (∀ task rest,
       tasks_ (runner sys r) = task :: rest →
       RunOneTask run_task (S fuel) r sys = Returned (ran r task rest sys)
       ∧ history (ran r task rest sys) = history sys ++ [(r, task)]
       ∧ tasks_ (runner (ran r task rest sys) r)
           = rest ++ pushes r (run_task r task (world sys)).1
       ∧ ∀ r', r' ≠ r →
           tasks_ (runner (ran r task rest sys) r')
           = tasks_ (runner sys r') ++ pushes r' (run_task r task (world sys)).1).
Proof.
  split.
  - intros Hq.
    assert (Hwait : ∀ sys0, tasks_ (runner sys0 r) = [] →
              task_ready_ (runner sys0 r) = false →
              ∀ thread task delay,
                RunOneTask run_task (S fuel) r (do_op run_task sys0 (OpPost thread r task delay))
                = Returned (ran r task [] (post r task delay sys0))).
    { intros sys0 Hq0 _ thread task delay. simpl.
      rewrite runner_post, decide_True by done. simpl. by rewrite Hq0. }
    simpl. rewrite Hq. destruct (task_ready_ (runner sys r)) eqn:Hready.
    + rewrite runner_with_runner_eq. simpl. rewrite Hq.
      eexists. split; [done|]. rewrite runner_with_runner_eq. simpl.
      repeat split; [done|]. apply Hwait; by rewrite runner_with_runner_eq.
    + exists sys. repeat split; [done|]. by apply Hwait.
  - intros task rest Hq. simpl. rewrite Hq. split; [done|].
    split; [apply history_ran|]. split.
    + by rewrite tasks_ran, decide_True.
    + intros r' Hne. by rewrite tasks_ran, decide_False.
Qed.

(** ** Posting with a delay *)

(** C4, as the code has it: [PostNonNestableDelayedTask] never queues
    the task; it is fatal where DCHECKs are compiled in and returns
    [false] elsewhere.  [PostDelayedTask] never fails and does not look
    at the delay: it pushes the task at the back of the queue, signals
    the event and returns [true]. *)
Theorem delayed_posting task (delay : TimeDelta) (x : TestTaskRunner Task) :
  PostNonNestableDelayedTask true task delay x = Fatal
  ∧ PostNonNestableDelayedTask false task delay x = Done (false, x)
  ∧ (PostDelayedTask task delay x).1 = true
  ∧ tasks_ (PostDelayedTask task delay x).2 = tasks_ x ++ [task]
  ∧ task_ready_ (PostDelayedTask task delay x).2 = true
  ∧ quit_called_ (PostDelayedTask task delay x).2 = quit_called_ x
  ∧ PostDelayedTask task delay x = PostDelayedTask task 0 x.
Proof. by repeat split. Qed.

(** ** First in, first out *)

Lemma queue_order_fresh w : queue_order (fresh w : System Task World).
Proof. intros r. unfold runner. simpl. by rewrite lookup_total_empty. Qed.

Lemma queue_order_post r task delay sys :
  queue_order sys → queue_order (post r task delay sys).
Proof.
  intros H r'. rewrite runner_post. simpl. rewrite on_app, H. simpl.
  case_decide; simpl.
  - subst. by rewrite <- app_assoc.
  - by rewrite app_nil_r.
Qed.

Lemma queue_order_flags r sys (x : TestTaskRunner Task) :
  tasks_ x = tasks_ (runner sys r) →
  queue_order sys → queue_order (with_runner r x sys).
Proof.
  intros Hx H r'. rewrite runner_with_runner. simpl. rewrite H.
  case_decide; subst; by rewrite ?Hx.
Qed.

Lemma queue_order_ran r task rest sys :
  tasks_ (runner sys r) = task :: rest →
  queue_order sys → queue_order (ran r task rest sys).
Proof.
  intros Hq H r'. rewrite posted_ran, history_ran, tasks_ran, on_app, H.
  simpl. case_decide; simpl.
  - subst. by rewrite Hq, <- !app_assoc.
  - by rewrite app_nil_r, <- app_assoc.
Qed.

Lemma queue_order_Run_from fuel r sys :
  queue_order sys → queue_order (state_of (Run_from run_task fuel r sys)).
Proof.
  revert sys. induction fuel as [|fuel IH]; intros sys H; simpl; [done|].
  destruct (tasks_ (runner sys r)) as [|task rest] eqn:Hq.
  - destruct (task_ready_ (runner sys r)); [|done].
    apply IH, queue_order_flags; done.
  - pose proof (queue_order_ran r task rest sys Hq H) as H'.
    destruct (quit_called_ _); [done|]. by apply IH.
Qed.

Lemma queue_order_RunOneTask fuel r sys :
  queue_order sys → queue_order (state_of (RunOneTask run_task fuel r sys)).
Proof.
  revert sys. induction fuel as [|fuel IH]; intros sys H; simpl; [done|].
  destruct (tasks_ (runner sys r)) as [|task rest] eqn:Hq.
  - destruct (task_ready_ (runner sys r)); [|done].
    apply IH, queue_order_flags; done.
  - by apply queue_order_ran.
Qed.

Lemma queue_order_do_op op sys :
  queue_order sys → queue_order (do_op run_task sys op).
Proof.
  intros H. destruct op as [thread r task delay|r|fuel r|fuel r]; simpl.
  - by apply queue_order_post.
  - by apply queue_order_flags.
  - apply queue_order_Run_from. by apply queue_order_flags.
  - by apply queue_order_RunOneTask.
Qed.

Lemma queue_order_run_ops ops sys :
  queue_order sys → queue_order (run_ops run_task ops sys).
Proof.
  revert sys. induction ops as [|op ops IH]; intros sys H; [done|].
  apply IH. by apply queue_order_do_op.
Qed.

(** C3: whatever the threads post and however the posts interleave with
    the calls of [Run], [RunOneTask] and [Quit], the task a runner runs
    as its [j]-th is the task posted to it as the [j]-th, and every task
    posted before it has been run before it. *)
Theorem Run_is_FIFO (ops : list (Op Task)) (w : World) r (i j : nat) t2 :
  i < j →
  on r (history (run_ops run_task ops (fresh w))) !! j = Some t2 →
  on r (posted (run_ops run_task ops (fresh w))) !! j = Some t2
  ∧ ∃ t1,
      on r (posted (run_ops run_task ops (fresh w))) !! i = Some t1
      ∧ on r (history (run_ops run_task ops (fresh w))) !! i = Some t1.
Proof.
  intros Hij Hj.
  pose proof (queue_order_run_ops ops (fresh w) (queue_order_fresh w) r) as H.
  set (sys := run_ops run_task ops (fresh w)) in *.
  rewrite H. split; [by apply lookup_app_l_Some|].
  destruct (lookup_lt_is_Some_2 (on r (history sys)) i) as [t1 Hi].
  { apply lookup_lt_Some in Hj. lia. }
  exists t1. split; [by apply lookup_app_l_Some|done].
Qed.

End WithSemantics.
End RunnerFacts.

(** * Facts about [IntegerSenderImpl] *)
Module SenderFacts.
Section WithCallbacks.

Context {EchoCallback Handler : Type}.

(** C10: with a null echo handler, [Echo] runs the callback itself, once
    and with the value it was given; with a handler set, [Echo] makes one
    call, to the handler, passing the value and the callback on, and runs
    no callback itself. *)
Theorem Echo_runs_callback_or_handler
    (impl : IntegerSenderImpl Handler) (value : Z) (callback : EchoCallback) :
  (echo_handler_ impl = None →
     Echo impl value callback = [InvokeCallback callback value]
     ∧ callback_runs (Echo impl value callback) = 1)
  ∧ (∀ handler,
       echo_handler_ impl = Some handler →
       Echo impl value callback = [InvokeHandler handler value callback]
       ∧ callback_runs (Echo impl value callback) = 0).
Proof.
  unfold Echo. split.
  - by intros ->.
  - by intros handler ->.
Qed.

End WithCallbacks.
End SenderFacts.

(** * The runner on closures that only call runners *)
Module ScriptFacts.
Import Script RunnerFacts.

Lemma Run_returns_after_the_quitting_task_witness :
  ∃ sys' new,
    Run run_script 2 0 three_tasks = Returned sys'
    ∧ history sys' = [(0, idle 1); (0, quitter 2 0)]
    ∧ tasks_ (runner sys' 0) = [idle 3] ++ new.
Proof.
  apply (Run_returns_after_the_quitting_task run_script
           [idle 1] (quitter 2 0) [idle 3] 0 0 three_tasks);
    vm_compute; reflexivity.
Defined.

(** C1 as stated fails: a task of the batch queued behind the quitting
    task is not run before [Run] returns. *)
Lemma Run_finishes_batch_counterexample :
  ¬ (∀ fuel r (sys sys' : System Script unit) pre task rest,
       tasks_ (runner sys r) = pre ++ task :: rest →
       quits r (run_script r task (world sys)).1 = true →
       Run run_script fuel r sys = Returned sys' →
       ∀ t, t ∈ rest → (r, t) ∈ history sys').
Proof.
  intros H.
  specialize (H 2 0 three_tasks (state_of (Run run_script 2 0 three_tasks))
                [idle 1] (quitter 2 0) [idle 3]).
  specialize (H eq_refl eq_refl eq_refl (idle 3)).
  assert (Hin : idle 3 ∈ [idle 3]) by apply list_elem_of_here.
  apply H in Hin. vm_compute in Hin.
  apply list_elem_of_In in Hin. simpl in Hin.
  destruct Hin as [Hin|[Hin|[]]]; discriminate Hin.
Qed.

Lemma Run_clears_quit_at_entry_witness :
  Run run_script 2 0 (quit 0 three_tasks) = Run run_script 2 0 three_tasks
  ∧ ∃ mid task rest,
      history three_tasks `prefix_of` history mid
      ∧ tasks_ (runner mid 0) = task :: rest
      ∧ quits 0 (run_script 0 task (world mid)).1 = true
      ∧ state_of (Run run_script 2 0 three_tasks) = run_front run_script 0 task rest mid.
Proof.
  destruct (Run_clears_quit_at_entry run_script 2 0 three_tasks) as [H1 H2].
  split; [exact H1|]. apply H2. vm_compute. reflexivity.
Defined.

Lemma RunOneTask_runs_the_oldest_witness :
  (∃ sys', RunOneTask run_script 2 1 three_tasks = Waiting sys'
           ∧ tasks_ (runner sys' 1) = [])
  ∧ RunOneTask run_script 1 0 three_tasks
    = Returned (run_front run_script 0 (idle 1) [quitter 2 0; idle 3] three_tasks)
  ∧ tasks_ (runner (run_front run_script 0 (idle 1) [quitter 2 0; idle 3] three_tasks) 0)
    = [quitter 2 0; idle 3] ++ [].
Proof.
  split.
  - destruct (RunOneTask_runs_the_oldest run_script 0 1 three_tasks) as [H _].
    destruct H as (sys' & H1 & H2 & _); [vm_compute; reflexivity|].
    exists sys'. by split.
  - destruct (RunOneTask_runs_the_oldest run_script 0 0 three_tasks) as [_ H].
    destruct (H (idle 1) [quitter 2 0; idle 3]) as (H1 & _ & H2 & _);
      [vm_compute; reflexivity|].
    by split.
Defined.

(** C4 as stated fails: [PostDelayedTask] with a delay of five returns
    [true] with the task queued, and the task is run. *)
Lemma PostDelayedTask_counterexample :
  PostDelayedTask (idle 1) 5 new_runner
    = (true, {| quit_called_ := false; task_ready_ := true; tasks_ := [idle 1] |})
  ∧ history (state_of (RunOneTask run_script 1 0 (post 0 (idle 1) 5 (fresh tt))))
    = [(0, idle 1)].
Proof. split; vm_compute; reflexivity. Qed.

Lemma Run_is_FIFO_witness :
  on 0 (posted (run_ops run_script two_posters (fresh tt))) !! 3 = Some (quitter 4 0)
  ∧ ∃ t1,
      on 0 (posted (run_ops run_script two_posters (fresh tt))) !! 1 = Some t1
      ∧ on 0 (history (run_ops run_script two_posters (fresh tt))) !! 1 = Some t1.
Proof.
  apply (Run_is_FIFO run_script two_posters tt 0 1 3 (quitter 4 0));
    [lia | vm_compute; reflexivity].
Defined.

Lemma Echo_runs_callback_or_handler_witness :
  Echo {| echo_handler_ := None |} 1024 7 = [InvokeCallback 7 1024 : Invocation nat nat]
  ∧ Echo {| echo_handler_ := Some 3 |} 1024 7 = [InvokeHandler 3 1024 7].
Proof.
  split.
  - apply (SenderFacts.Echo_runs_callback_or_handler
             {| echo_handler_ := None |} 1024 7). reflexivity.
  - apply (SenderFacts.Echo_runs_callback_or_handler
             {| echo_handler_ := Some 3 |} 1024 7 : _ ∧ _). reflexivity.
Defined.

End ScriptFacts.

(** * Facts about the endpoints *)
Module MojoFacts.
Import Mojo RunnerFacts.

Implicit Types (sys : System) (w : World) (r : RunnerId) (ep a b : EpId).
Implicit Types (calls : list (RunnerCall Task)) (body : Closure).

Lemma endpoint_with_endpoint w ep ep' e :
  endpoint (with_endpoint ep e w) ep' = if decide (ep = ep') then e else endpoint w ep'.
Proof.
  unfold endpoint, with_endpoint; simpl. case_decide as E.
  - subst. by rewrite lookup_total_insert_eq.
  - by rewrite lookup_total_insert_ne.
Qed.

Lemma same_bindings_set_pending w ep p n :
  same_bindings w (with_endpoint ep (set_pending p n (endpoint w ep)) w).
Proof.
  intros ep'. rewrite endpoint_with_endpoint. case_decide; by subst.
Qed.

Lemma same_bindings_route w w' ep : same_bindings w w' → route w' ep = route w ep.
Proof.
  intros H. unfold route. destruct (H ep) as (Hr & -> & _).
  destruct (ep_master (endpoint w ep)) as [m|]; [|done].
  by destruct (H m) as (-> & _).
Qed.

Lemma same_bindings_respond w w' cb value :
  same_bindings w w' → respond w' cb value = respond w cb value.
Proof.
  intros H. destruct cb as [ep id]. unfold respond, send.
  destruct (H ep) as (_ & _ & _ & -> & -> & _).
  by rewrite (same_bindings_route w w').
Qed.

(** A lambda sets flags and counts failures; it leaves the endpoints and
    the log alone, and the only tasks it pushes are the replies of its
    callback. *)
Lemma run_stmt_world value cb s w :
  endpoints (run_stmt value cb s w).2 = endpoints w
  ∧ events (run_stmt value cb s w).2 = events w.
Proof. destruct s; simpl; try done. by case_decide. Qed.

Lemma run_closure_world value cb body w :
  endpoints (run_closure value cb body w).2 = endpoints w
  ∧ events (run_closure value cb body w).2 = events w.
Proof.
  revert w. induction body as [|s body IH]; intros w; simpl; [done|].
  destruct (run_stmt_world value cb s w) as [He Hv].
  destruct (run_stmt value cb s w) as [calls1 w1]. simpl in *.
  destruct (IH w1) as [He' Hv'].
  destruct (run_closure value cb body w1) as [calls2 w2]. simpl in *.
  split; congruence.
Qed.

Lemma respond_same_endpoints w w' cb value :
  endpoints w' = endpoints w → respond w' cb value = respond w cb value.
Proof.
  intros H. apply same_bindings_respond. intros ep. unfold endpoint.
  by rewrite H.
Qed.

Lemma pushes_app r calls1 calls2 :
  pushes r (calls1 ++ calls2) = pushes r calls1 ++ pushes r calls2.
Proof. unfold pushes. apply omap_app. Qed.

Lemma run_closure_pushes value cb body w r :
  pushes r (run_closure value cb body w).1 =
    mjoin (replicate (callbacks_in body)
             (pushes r (match cb with Some c => respond w c value | None => [] end))).
Proof.
  revert w. induction body as [|s body IH]; intros w; simpl; [done|].
  pose proof (run_stmt_world value cb s w) as [He _].
  destruct (run_stmt value cb s w) as [calls1 w1] eqn:Es. simpl in *.
  specialize (IH w1).
  destruct (run_closure value cb body w1) as [calls2 w2]. simpl in *.
  rewrite pushes_app, IH.
  assert (Hsame : match cb with Some c => respond w1 c value | None => [] end
                  = match cb with Some c => respond w c value | None => [] end).
  { destruct cb; [|done]. by apply respond_same_endpoints. }
  rewrite Hsame. unfold callbacks_in.
  rewrite (filter_cons (λ s0 : Stmt, s0 = RunCallback)).
  destruct s; simpl in Es; injection Es as <- <-;
    (case_decide as E; [try discriminate E|try done]); simpl; done.
Qed.

Lemma mjoin_replicate_nil {A} n : mjoin (replicate n ([] : list A)) = [].
Proof. induction n; simpl; done. Qed.

Lemma pushes_one r r' (task : Task) delay :
  pushes r' [CallPostDelayedTask r task delay] = if decide (r = r') then [task] else [].
Proof. unfold pushes. simpl. by case_decide. Qed.

(** [RunOneTask] on the runner that holds the only task. *)
Lemma RunOneTask_only_task fuel r task sys :
  only_task r task sys →
  RunOneTask (S fuel) r sys = Returned (run_front run_task r task [] sys)
  ∧ (∀ r', tasks_ (runner (run_front run_task r task [] sys) r')
           = pushes r' (run_task r task (world sys)).1)
  ∧ world (run_front run_task r task [] sys) = (run_task r task (world sys)).2
  ∧ history (run_front run_task r task [] sys) = history sys ++ [(r, task)].
Proof.
  intros Honly. pose proof (Honly r) as Hr. rewrite decide_True in Hr by done.
  simpl. rewrite Hr. split; [done|]. split; [|split].
  - intros r'. rewrite tasks_ran. specialize (Honly r').
    case_decide; [done|]. by rewrite Honly.
  - apply world_ran.
  - apply history_ran.
Qed.

(** The call: the request is registered and its forwarding task is the
    only task queued, on the runner of the callee's master. *)
Lemma Call_quiescent sys a b mb value (cb : option Closure) :
  ep_closed (endpoint (world sys) a) = false →
  ep_peer (endpoint (world sys) a) = b →
  ep_master (endpoint (world sys) b) = Some mb →
  quiescent sys →
  ∃ s1,
    Call a value cb sys = Done s1
    ∧ only_task (ep_runner (endpoint (world sys) mb))
        (Forward b (EchoRequest (ep_next_id (endpoint (world sys) a)) value)) s1
    ∧ history s1 = history sys
    ∧ world s1 =
        with_endpoint a
          (set_pending
             (match cb with
              | Some c => <[ep_next_id (endpoint (world sys) a) := c]>
                            (ep_pending (endpoint (world sys) a))
              | None => ep_pending (endpoint (world sys) a)
              end)
             (S (ep_next_id (endpoint (world sys) a)))
             (endpoint (world sys) a))
          (world sys).
Proof.
  intros Hopen Hpeer Hmaster Hq. unfold Call. rewrite Hopen.
  eexists. split; [done|].
  set (w1 := with_endpoint a _ (world sys)).
  assert (Hsame : same_bindings (world sys) w1) by apply same_bindings_set_pending.
  assert (Hsend : send w1 a (EchoRequest (ep_next_id (endpoint (world sys) a)) value)
                  = [CallPostDelayedTask (ep_runner (endpoint (world sys) mb))
                       (Forward b (EchoRequest (ep_next_id (endpoint (world sys) a)) value)) 0]).
  { unfold send. destruct (Hsame a) as (_ & _ & _ & -> & _). rewrite Hpeer.
    rewrite (same_bindings_route _ _ b Hsame). unfold route. by rewrite Hmaster. }
  rewrite Hsend. split; [|split].
  - intros r'. rewrite tasks_apply_calls, pushes_one.
    change (runner (with_world w1 sys) r') with (runner sys r'). by rewrite Hq.
  - by rewrite history_apply_calls.
  - by rewrite world_apply_calls.
Qed.

Lemma endpoint_same_endpoints w w' ep :
  endpoints w' = endpoints w → endpoint w' ep = endpoint w ep.
Proof. intros H. unfold endpoint. by rewrite H. Qed.

(** Delivery of a request to an implementation that answers once: the
    handler is logged and the only task pushed is the forwarding task of
    the reply, on the runner of the caller's master. *)
Lemma dispatch_request w on_runner a b ma impl request_id value :
  ep_closed (endpoint w b) = false →
  ep_impl (endpoint w b) = Some impl →
  ep_peer (endpoint w b) = a →
  ep_master (endpoint w a) = Some ma →
  echoes_once impl →
  endpoints (dispatch on_runner b (EchoRequest request_id value) w).2 = endpoints w
  ∧ events (dispatch on_runner b (EchoRequest request_id value) w).2
      = events w ++ [EchoDispatched b value on_runner]
  ∧ ∀ r', pushes r' (dispatch on_runner b (EchoRequest request_id value) w).1
          = if decide (ep_runner (endpoint w ma) = r')
            then [Forward a (EchoResponse request_id value)] else [].
Proof.
  intros Hopen Himpl Hpeer Hmaster Honce. unfold dispatch.
  rewrite Hopen, Himpl.
  set (w' := log (EchoDispatched b value on_runner) w).
  assert (Hresp : respond w' (Respond b request_id) value
                  = [CallPostDelayedTask (ep_runner (endpoint w ma))
                       (Forward a (EchoResponse request_id value)) 0]).
  { rewrite (respond_same_endpoints w w') by done. unfold respond, send, route.
    by rewrite Hopen, Hpeer, Hmaster. }
  unfold Echo, echoes_once in *.
  destruct (echo_handler_ impl) as [handler|];
    cbn [run_invocations run_invocation].
  - pose proof (run_closure_world value (Some (Respond b request_id)) handler w') as [He Hv].
    pose proof (run_closure_pushes value (Some (Respond b request_id)) handler w') as Hp.
    destruct (run_closure value (Some (Respond b request_id)) handler w') as [calls1 w1].
    simpl in *. repeat split; [done..|].
    intros r'. rewrite app_nil_r, Hp, Honce, Hresp, pushes_one. simpl.
    by rewrite app_nil_r.
  - rewrite Hresp. repeat split. intros r'. simpl. by case_decide.
Qed.

(** Delivery of a response with a Pending Call: the callback is logged,
    nothing is pushed and the Pending Call is gone. *)
Lemma dispatch_response w on_runner a request_id value (cb : Closure) :
  ep_closed (endpoint w a) = false →
  ep_pending (endpoint w a) !! request_id = Some cb →
  events (dispatch on_runner a (EchoResponse request_id value) w).2
    = events w ++ [ReplyDispatched a value on_runner]
  ∧ (∀ r', pushes r' (dispatch on_runner a (EchoResponse request_id value) w).1 = [])
  ∧ ep_pending (endpoint (dispatch on_runner a (EchoResponse request_id value) w).2 a)
      !! request_id = None.
Proof.
  intros Hopen Hpending. unfold dispatch. rewrite Hopen, Hpending.
  set (w' := log _ _).
  pose proof (run_closure_world value None cb w') as [He Hv].
  pose proof (run_closure_pushes value None cb w') as Hp.
  destruct (run_closure value None cb w') as [calls1 w1]. simpl in *.
  split; [done|]. split.
  - intros r'. rewrite Hp. apply mjoin_replicate_nil.
  - rewrite (endpoint_same_endpoints w' w1) by done. unfold w'.
    change (endpoint (log ?ev ?w0) a) with (endpoint w0 a).
    rewrite endpoint_with_endpoint, decide_True by done. simpl.
    apply lookup_delete_eq.
Qed.

(** The whole round trip of a call on an associated endpoint in a
    system at rest, one [RunOneTask] at a time. *)
Lemma round_trip sys a b ma mb impl (value : Z) (cb : Closure) fuel :
  associated_pair (world sys) a b ma mb impl →
  echoes_once impl →
  quiescent sys →
  ∃ s1 s2 s3 s4 s5,
    Call a value (Some cb) sys = Done s1
    ∧ only_task (ep_runner (endpoint (world sys) mb))
        (Forward b (EchoRequest (ep_next_id (endpoint (world sys) a)) value)) s1
    ∧ events (world s1) = events (world sys)
    ∧ RunOneTask (S fuel) (ep_runner (endpoint (world sys) mb)) s1 = Returned s2
    ∧ only_task (ep_runner (endpoint (world sys) b))
        (Deliver b (EchoRequest (ep_next_id (endpoint (world sys) a)) value)) s2
    ∧ events (world s2) = events (world sys)
    ∧ RunOneTask (S fuel) (ep_runner (endpoint (world sys) b)) s2 = Returned s3
    ∧ only_task (ep_runner (endpoint (world sys) ma))
        (Forward a (EchoResponse (ep_next_id (endpoint (world sys) a)) value)) s3
    ∧ events (world s3)
        = events (world sys)
            ++ [EchoDispatched b value (ep_runner (endpoint (world sys) b))]
    ∧ RunOneTask (S fuel) (ep_runner (endpoint (world sys) ma)) s3 = Returned s4
    ∧ only_task (ep_runner (endpoint (world sys) a))
        (Deliver a (EchoResponse (ep_next_id (endpoint (world sys) a)) value)) s4
    ∧ events (world s4) = events (world s3)
    ∧ RunOneTask (S fuel) (ep_runner (endpoint (world sys) a)) s4 = Returned s5
    ∧ quiescent s5
    ∧ events (world s5)
        = events (world sys)
            ++ [EchoDispatched b value (ep_runner (endpoint (world sys) b));
                ReplyDispatched a value (ep_runner (endpoint (world sys) a))]
    ∧ ep_pending (endpoint (world s5) a) !! ep_next_id (endpoint (world sys) a) = None
    ∧ history s5
        = history sys
            ++ [(ep_runner (endpoint (world sys) mb),
                 Forward b (EchoRequest (ep_next_id (endpoint (world sys) a)) value));
                (ep_runner (endpoint (world sys) b),
                 Deliver b (EchoRequest (ep_next_id (endpoint (world sys) a)) value));
                (ep_runner (endpoint (world sys) ma),
                 Forward a (EchoResponse (ep_next_id (endpoint (world sys) a)) value));
                (ep_runner (endpoint (world sys) a),
                 Deliver a (EchoResponse (ep_next_id (endpoint (world sys) a)) value))].
Proof.
  intros [Ha Hb Hab Hba Hma Hmb Himpl] Honce Hq.
  set (w := world sys) in *.
  set (request_id := ep_next_id (endpoint w a)).
  (* the call *)
  destruct (Call_quiescent sys a b mb value (Some cb) Ha Hab Hmb Hq)
    as (s1 & HCall & Honly1 & Hh1 & Hw1).
  fold w in Hw1, Honly1. fold request_id in Hw1, Honly1.
  set (w1 := world s1) in *.
  assert (Hsame : same_bindings w w1).
  { rewrite Hw1. apply same_bindings_set_pending. }
  assert (Hpending : ep_pending (endpoint w1 a) !! request_id = Some cb).
  { rewrite Hw1, endpoint_with_endpoint, decide_True by done. simpl.
    apply lookup_insert_eq. }
  destruct (Hsame a) as (Hra & Hma1 & _ & Hab1 & Ha1 & _).
  destruct (Hsame b) as (Hrb & Hmb1 & _ & Hba1 & Hb1 & Himpl1 & _).
  rewrite Hma in Hma1. rewrite Hmb in Hmb1. rewrite Hab in Hab1.
  rewrite Hba in Hba1. rewrite Ha in Ha1. rewrite Hb in Hb1.
  rewrite Himpl in Himpl1.
  destruct (Hsame ma) as (Hrma & _). destruct (Hsame mb) as (Hrmb & _).
  (* first hop of the request *)
  destruct (RunOneTask_only_task fuel _ _ s1 Honly1) as (HRun2 & Hq2 & Hw2 & Hh2).
  set (s2 := run_front run_task _ _ [] s1) in *.
  assert (Hstep2 : run_task (ep_runner (endpoint w mb))
                     (Forward b (EchoRequest request_id value)) w1
                   = ([CallPostDelayedTask (ep_runner (endpoint w b))
                         (Deliver b (EchoRequest request_id value)) 0], w1)).
  { simpl. fold w1. by rewrite Hmb1, Hrb. }
  fold w1 in Hq2, Hw2. rewrite Hstep2 in Hq2, Hw2. cbn [fst snd] in Hq2, Hw2.
  assert (Honly2 : only_task (ep_runner (endpoint w b))
                     (Deliver b (EchoRequest request_id value)) s2).
  { intros r'. by rewrite Hq2, pushes_one. }
  (* second hop of the request *)
  destruct (RunOneTask_only_task fuel _ _ s2 Honly2) as (HRun3 & Hq3 & Hw3 & Hh3).
  set (s3 := run_front run_task _ _ [] s2) in *.
  rewrite Hw2 in Hq3, Hw3.
  destruct (dispatch_request w1 (ep_runner (endpoint w b)) a b ma impl
              request_id value Hb1 Himpl1 Hba1 Hma1 Honce) as (He3 & Hv3 & Hp3).
  change (run_task (ep_runner (endpoint w b))
            (Deliver b (EchoRequest request_id value)) w1)
    with (dispatch (ep_runner (endpoint w b)) b (EchoRequest request_id value) w1)
    in Hq3, Hw3.
  rewrite <- Hw3 in He3, Hv3.
  assert (Honly3 : only_task (ep_runner (endpoint w ma))
                     (Forward a (EchoResponse request_id value)) s3).
  { intros r'. by rewrite Hq3, Hp3, Hrma. }
  set (w3 := world s3) in *.
  (* first hop of the reply *)
  destruct (RunOneTask_only_task fuel _ _ s3 Honly3) as (HRun4 & Hq4 & Hw4 & Hh4).
  set (s4 := run_front run_task _ _ [] s3) in *.
  assert (Hstep4 : run_task (ep_runner (endpoint w ma))
                     (Forward a (EchoResponse request_id value)) w3
                   = ([CallPostDelayedTask (ep_runner (endpoint w a))
                         (Deliver a (EchoResponse request_id value)) 0], w3)).
  { simpl. rewrite (endpoint_same_endpoints w1 w3) by done.
    by rewrite Hma1, Hra. }
  fold w3 in Hq4, Hw4. rewrite Hstep4 in Hq4, Hw4. cbn [fst snd] in Hq4, Hw4.
  assert (Honly4 : only_task (ep_runner (endpoint w a))
                     (Deliver a (EchoResponse request_id value)) s4).
  { intros r'. by rewrite Hq4, pushes_one. }
  (* second hop of the reply *)
  destruct (RunOneTask_only_task fuel _ _ s4 Honly4) as (HRun5 & Hq5 & Hw5 & Hh5).
  set (s5 := run_front run_task _ _ [] s4) in *.
  rewrite Hw4 in Hq5, Hw5.
  destruct (dispatch_response w3 (ep_runner (endpoint w a)) a request_id value cb)
    as (Hv5 & Hp5 & Hpend5).
  { by rewrite (endpoint_same_endpoints w1 w3). }
  { by rewrite (endpoint_same_endpoints w1 w3). }
  change (run_task (ep_runner (endpoint w a))
            (Deliver a (EchoResponse request_id value)) w3)
    with (dispatch (ep_runner (endpoint w a)) a (EchoResponse request_id value) w3)
    in Hq5, Hw5.
  rewrite <- Hw5 in Hv5, Hpend5.
  assert (Hv1 : events w1 = events w) by (by rewrite Hw1).
  exists s1, s2, s3, s4, s5.
  split; [exact HCall|]. split; [exact Honly1|]. split; [exact Hv1|].
  split; [exact HRun2|]. split; [exact Honly2|].
  split; [by rewrite Hw2|].
  split; [exact HRun3|]. split; [exact Honly3|].
  split; [fold w3; by rewrite Hv3, Hv1|].
  split; [exact HRun4|]. split; [exact Honly4|].
  split; [by rewrite Hw4|].
  split; [exact HRun5|].
  split; [intros r'; by rewrite Hq5, Hp5|].
  split; [|split; [exact Hpend5|]].
  - rewrite Hv5. rewrite Hv3, Hv1. by rewrite <- app_assoc.
  - rewrite Hh5, Hh4, Hh3, Hh2, Hh1. by rewrite <- !app_assoc.
Qed.

(** C2: in a system at rest, a call on the associated endpoint [a]
    reaches the handler of its opposite side [b] after one task on the
    runner of [b]'s master and then one task on [b]'s own runner.  After
    the first of the two the handler has not run and the request waits
    on [b]'s runner.  The reply goes the same way: one task on the runner
    of [a]'s master, which leaves the delivery queued on [a]'s runner. *)
Theorem call_on_associated_endpoint_takes_two_hops
    sys a b ma mb impl (value : Z) (cb : Closure) fuel :
  associated_pair (world sys) a b ma mb impl →
  echoes_once impl →
  quiescent sys →
  ∃ s1 s2 s3 s4,
    Call a value (Some cb) sys = Done s1
    ∧ only_task (ep_runner (endpoint (world sys) mb))
        (Forward b (EchoRequest (ep_next_id (endpoint (world sys) a)) value)) s1
    ∧ events (world s1) = events (world sys)
    ∧ RunOneTask (S fuel) (ep_runner (endpoint (world sys) mb)) s1 = Returned s2
    ∧ only_task (ep_runner (endpoint (world sys) b))
        (Deliver b (EchoRequest (ep_next_id (endpoint (world sys) a)) value)) s2
    ∧ events (world s2) = events (world sys)
    ∧ RunOneTask (S fuel) (ep_runner (endpoint (world sys) b)) s2 = Returned s3
    ∧ events (world s3)
        = events (world sys)
            ++ [EchoDispatched b value (ep_runner (endpoint (world sys) b))]
    ∧ only_task (ep_runner (endpoint (world sys) ma))
        (Forward a (EchoResponse (ep_next_id (endpoint (world sys) a)) value)) s3
    ∧ RunOneTask (S fuel) (ep_runner (endpoint (world sys) ma)) s3 = Returned s4
    ∧ only_task (ep_runner (endpoint (world sys) a))
        (Deliver a (EchoResponse (ep_next_id (endpoint (world sys) a)) value)) s4
    ∧ events (world s4) = events (world s3).
Proof.
  intros Hpair Honce Hq.
  destruct (round_trip sys a b ma mb impl value cb fuel Hpair Honce Hq)
    as (s1 & s2 & s3 & s4 & s5 & H).
  exists s1, s2, s3, s4. tauto.
Qed.


(** ** Closing *)














End MojoFacts.

(** * The fixtures *)
Module FixtureFacts.
Import Mojo MojoFacts.
Import AssociatedBindTaskRunnerTest.

(** The six tests pass on the model: every body runs to its end and no
    expectation fails. *)
Example BindTaskRunnerTest_passes :
  (failures ∘ world <$> BindTaskRunnerTest.MethodCall) = Some 0
  ∧ (failures ∘ world <$> BindTaskRunnerTest.BindingConnectionError) = Some 0
  ∧ (failures ∘ world <$> BindTaskRunnerTest.PtrConnectionError) = Some 0.
Proof. repeat split; vm_compute; reflexivity. Qed.

Example AssociatedBindTaskRunnerTest_passes :
  (failures ∘ world <$> MethodCall) = Some 0
  ∧ (failures ∘ world <$> BindingConnectionError) = Some 0
  ∧ (failures ∘ world <$> PtrConnectionError) = Some 0.
Proof. repeat split; vm_compute; reflexivity. Qed.

(** What the handlers of the associated tests saw, and on which runner. *)
Example AssociatedBindTaskRunnerTest_events :
  (events ∘ world <$> MethodCall)
    = Some [EchoDispatched sender_impl 1024 sender_binding_task_runner_;
            ReplyDispatched sender_ptr_ 1024 sender_ptr_task_runner_]
  ∧ (events ∘ world <$> BindingConnectionError)
    = Some [ErrorDispatched sender_ptr_ sender_ptr_task_runner_;
            ErrorDispatched connection_impl_ connection_binding_task_runner_;
            ErrorDispatched sender_impl sender_binding_task_runner_]
  ∧ (events ∘ world <$> PtrConnectionError)
    = Some [ErrorDispatched sender_impl sender_binding_task_runner_;
            ErrorDispatched connection_ptr_ connection_ptr_task_runner_;
            ErrorDispatched sender_ptr_ sender_ptr_task_runner_].
Proof. repeat split; vm_compute; reflexivity. Qed.

(** Without an associated endpoint there is one task in each direction:
    the master's own messages are handed over by the receive step. *)
Example BindTaskRunnerTest_MethodCall_history :
  (history <$> BindTaskRunnerTest.MethodCall)
    = Some [(BindTaskRunnerTest.binding_task_runner_,
             Forward BindTaskRunnerTest.impl_ (EchoRequest 0 1024));
            (BindTaskRunnerTest.ptr_task_runner_,
             Forward BindTaskRunnerTest.ptr_ (EchoResponse 0 1024))].
Proof. vm_compute. reflexivity. Qed.

Lemma SetUp_runners_quiescent (sys : System) :
  runners sys = runners SetUp → quiescent sys.
Proof.
  intros H r. unfold runner. rewrite H. simpl.
  destruct (decide (r = connection_binding_task_runner_)) as [->|Hne].
  - by rewrite lookup_total_insert_eq.
  - rewrite lookup_total_insert_ne by done. by rewrite lookup_total_empty.
Qed.

Lemma with_echo_handler_pair :
  associated_pair (world with_echo_handler) sender_ptr_ sender_impl
    connection_ptr_ connection_impl_ {| echo_handler_ := Some echo_handler |}.
Proof. split; vm_compute; reflexivity. Qed.

Lemma call_on_associated_endpoint_takes_two_hops_witness :
  ∃ s1 s2 s3,
    Call sender_ptr_ 1024 (Some echo_callback) with_echo_handler = Done s1
    ∧ RunOneTask 1 connection_binding_task_runner_ s1 = Returned s2
    ∧ events (world s2) = []
    ∧ RunOneTask 1 sender_binding_task_runner_ s2 = Returned s3
    ∧ events (world s3) = [EchoDispatched sender_impl 1024 sender_binding_task_runner_].
Proof.
  destruct (call_on_associated_endpoint_takes_two_hops with_echo_handler
              sender_ptr_ sender_impl connection_ptr_ connection_impl_
              {| echo_handler_ := Some echo_handler |} 1024 echo_callback 0)
    as (s1 & s2 & s3 & s4 & H1 & _ & _ & H2 & _ & H3 & H4 & H5 & _).
  - exact with_echo_handler_pair.
  - vm_compute. reflexivity.
  - apply SetUp_runners_quiescent. reflexivity.
  - exists s1, s2, s3. repeat split; assumption.
Defined.




End FixtureFacts.

(** * More about the runner: wake-ups, draining, other runners *)
Module RunnerMore.
Section WithSemantics.

Context {Task World : Type}.
Context (run_task : RunnerId → Task → World → list (RunnerCall Task) * World).

Implicit Types (sys : System Task World) (r : RunnerId) (task : Task).
Implicit Types (calls : list (RunnerCall Task)).

Import RunnerFacts.

Abbreviation ran := (run_front run_task).

(** ** Nothing is lost *)

(** Whatever is posted, by whatever thread, and however [Run],
    [RunOneTask] and [Quit] are called: the tasks posted to a runner are,
    in posting order, the tasks it has run followed by the tasks still in
    its queue.  No task is dropped, none is run twice. *)
Theorem posted_tasks_are_run_or_queued (ops : list (Op Task)) (w : World) r :
  on r (posted (run_ops run_task ops (fresh w)))
  = on r (history (run_ops run_task ops (fresh w)))
      ++ tasks_ (runner (run_ops run_task ops (fresh w)) r).
Proof. apply queue_order_run_ops, queue_order_fresh. Qed.

(** ** The event *)










(** ** Where [Run] and [RunOneTask] park *)




(** ** Draining *)

Lemma Run_from_runs_tasks n fuel r sys :
  runs_tasks run_task n r sys = true →
  quit_called_ (runner (run_batch run_task n r sys) r) = false →
  Run_from run_task (n + fuel) r sys
  = Run_from run_task fuel r (run_batch run_task n r sys).
Proof.
  revert sys. induction n as [|n IH]; intros sys Hbusy Hquiet; [done|].
  simpl in *. destruct (tasks_ (runner sys r)) as [|task rest] eqn:Hq; [done|].
  destruct (quit_called_ (runner (ran r task rest sys) r)) eqn:E.
  - by rewrite quit_called_run_batch_mono in Hquiet.
  - by apply IH.
Qed.

Lemma history_run_batch n r sys :
  runs_tasks run_task n r sys = true →
  length (history (run_batch run_task n r sys)) = length (history sys) + n.
Proof.
  revert sys. induction n as [|n IH]; intros sys Hbusy; simpl in *; [lia|].
  destruct (tasks_ (runner sys r)) as [|task rest] eqn:Hq; [done|].
  rewrite IH by done. rewrite history_ran, length_app. simpl. lia.
Qed.

(** When none of the tasks it runs calls [Quit()], [Run] keeps taking
    tasks, those pushed meanwhile included, until the queue is empty, and
    then parks: with [n] tasks to run in all it has run exactly those [n]
    and does not return. *)
Theorem Run_drains_the_queue_then_parks n fuel r sys :
  runs_tasks run_task n r (clear_quit r sys) = true →
  tasks_ (runner (run_batch run_task n r (clear_quit r sys)) r) = [] →
  quit_called_ (runner (run_batch run_task n r (clear_quit r sys)) r) = false →
  ∃ sys',
    Run run_task (n + S (S fuel)) r sys = Waiting sys'
    ∧ history sys' = history (run_batch run_task n r (clear_quit r sys))
    ∧ world sys' = world (run_batch run_task n r (clear_quit r sys))
    ∧ length (history sys') = length (history sys) + n
    ∧ tasks_ (runner sys' r) = [].
Proof.
  intros Hbusy Hempty Hquiet. unfold Run.
  rewrite (Run_from_runs_tasks n (S (S fuel)) r _ Hbusy Hquiet).
  pose proof (history_run_batch n r _ Hbusy) as Hlen.
  set (mid := run_batch run_task n r (clear_quit r sys)) in *.
  simpl. rewrite Hempty. destruct (task_ready_ (runner mid r)) eqn:Hready.
  - rewrite runner_with_runner_eq. simpl. rewrite Hempty.
    eexists. split; [done|]. rewrite runner_with_runner_eq. simpl.
    repeat split; done.
  - exists mid. repeat split; done.
Qed.

(** ** [RunOneTask] again and again *)

Lemma RunOneTask_times_run_batch n fuel r sys :
  runs_tasks run_task n r sys = true →
  RunOneTask_times run_task n (S fuel) r sys
  = Returned (run_batch run_task n r sys).
Proof.
  revert sys. induction n as [|n IH]; intros sys Hbusy; [done|].
  simpl in *. destruct (tasks_ (runner sys r)) as [|task rest] eqn:Hq; [done|].
  by apply IH.
Qed.

Lemma runs_tasks_prefix (pre q : list Task) r sys :
  tasks_ (runner sys r) = pre ++ q →
  runs_tasks run_task (length pre) r sys = true.
Proof.
  revert sys q. induction pre as [|task pre IH]; intros sys q Hq; [done|].
  simpl in *. rewrite Hq.
  apply (IH _ (q ++ pushes r (run_task r task (world sys)).1)).
  rewrite tasks_ran, decide_True by done. by rewrite app_assoc.
Qed.

(** As many calls of [RunOneTask] as there are tasks in [pre], the front
    of the queue, all return; together they have run the tasks of [pre]
    in queue order and nothing else, and what was queued behind [pre] is
    still there, in order, ahead of what was pushed meanwhile. *)
Theorem RunOneTask_times_runs_the_oldest_tasks
    (pre q : list Task) fuel r sys :
  tasks_ (runner sys r) = pre ++ q →
  ∃ sys' new,
    RunOneTask_times run_task (length pre) (S fuel) r sys = Returned sys'
    ∧ history sys' = history sys ++ ((λ t, (r, t)) <$> pre)
    ∧ tasks_ (runner sys' r) = q ++ new.
Proof.
  intros Hq.
  destruct (run_batch_prefix run_task pre r sys q Hq) as (new & Hn & Hh).
  exists (run_batch run_task (length pre) r sys), new.
  split; [|done].
  apply RunOneTask_times_run_batch. by apply (runs_tasks_prefix pre q).
Qed.

(** ** Other runners *)

Lemma on_history_ran r r' task rest sys :
  r ≠ r' → on r' (history (ran r task rest sys)) = on r' (history sys).
Proof.
  intros Hne. rewrite history_ran, on_app. unfold on at 2. simpl.
  rewrite decide_False by done. by rewrite app_nil_r.
Qed.

Lemma prefix_tasks_ran r r' task rest sys :
  r ≠ r' →
  tasks_ (runner sys r') `prefix_of` tasks_ (runner (ran r task rest sys) r').
Proof.
  intros Hne. rewrite tasks_ran, decide_False by done. by apply prefix_app_r.
Qed.

Lemma Run_from_other_runner fuel r r' sys :
  r ≠ r' →
  on r' (history (state_of (Run_from run_task fuel r sys))) = on r' (history sys)
  ∧ tasks_ (runner sys r')
      `prefix_of` tasks_ (runner (state_of (Run_from run_task fuel r sys)) r').
Proof.
  intros Hne. revert sys. induction fuel as [|fuel IH]; intros sys; simpl; [done|].
  destruct (tasks_ (runner sys r)) as [|task rest] eqn:Hq.
  - destruct (task_ready_ (runner sys r)); [|done].
    destruct (IH (with_runner r (set_task_ready false (runner sys r)) sys)) as [Hh Hp].
    split; [done|]. by rewrite runner_with_runner, decide_False in Hp.
  - pose proof (on_history_ran r r' task rest sys Hne) as Hh1.
    pose proof (prefix_tasks_ran r r' task rest sys Hne) as Hp1.
    destruct (quit_called_ _); [done|].
    destruct (IH (ran r task rest sys)) as [Hh Hp].
    split; [congruence|]. by etrans.
Qed.

Lemma RunOneTask_other_runner fuel r r' sys :
  r ≠ r' →
  on r' (history (state_of (RunOneTask run_task fuel r sys))) = on r' (history sys)
  ∧ tasks_ (runner sys r')
      `prefix_of` tasks_ (runner (state_of (RunOneTask run_task fuel r sys)) r').
Proof.
  intros Hne. revert sys. induction fuel as [|fuel IH]; intros sys; simpl; [done|].
  destruct (tasks_ (runner sys r)) as [|task rest] eqn:Hq.
  - destruct (task_ready_ (runner sys r)); [|done].
    destruct (IH (with_runner r (set_task_ready false (runner sys r)) sys)) as [Hh Hp].
    split; [done|]. by rewrite runner_with_runner, decide_False in Hp.
  - split; [by apply on_history_ran|by apply prefix_tasks_ran].
Qed.

(** [Run] and [RunOneTask] on one runner never run a task of another
    runner and never take one from its queue: the other queue keeps all it
    had, in order, and can only have grown at the back. *)
Theorem other_runners_are_left_alone fuel r r' sys :
  r ≠ r' →
  (on r' (history (state_of (Run run_task fuel r sys))) = on r' (history sys)
   ∧ tasks_ (runner sys r')
       `prefix_of` tasks_ (runner (state_of (Run run_task fuel r sys)) r'))
  ∧ (on r' (history (state_of (RunOneTask run_task fuel r sys))) = on r' (history sys)
     ∧ tasks_ (runner sys r')
         `prefix_of` tasks_ (runner (state_of (RunOneTask run_task fuel r sys)) r')).
Proof.
  intros Hne. split; [|by apply RunOneTask_other_runner].
  unfold Run. destruct (Run_from_other_runner fuel r r' (clear_quit r sys) Hne) as [Hh Hp].
  split; [done|]. by rewrite tasks_clear_quit in Hp.
Qed.

(** ** [RunOneTask] and the quit flag *)

Implicit Types (s : System Task World).







(** ** A queue that never runs empty *)

(** When no task ever calls [Quit()] on the runner and every task pushes
    at least one task on it, [Run] on a non-empty queue neither returns
    nor parks: after any number of iterations it is still running
    tasks. *)
Theorem Run_spins_while_tasks_keep_posting fuel r sys :
  (∀ task w, quits r (run_task r task w).1 = false) →
  (∀ task w, pushes r (run_task r task w).1 ≠ []) →
  tasks_ (runner sys r) ≠ [] →
  ∃ sys',
    Run run_task fuel r sys = OutOfFuel sys'
    ∧ tasks_ (runner sys' r) ≠ []
    ∧ length (history sys') = length (history sys) + fuel.
Proof.
  intros Hquiet Hfeed Hq. unfold Run.
  assert (H : ∀ sys0, quit_called_ (runner sys0 r) = false →
                tasks_ (runner sys0 r) ≠ [] →
                ∃ sys', Run_from run_task fuel r sys0 = OutOfFuel sys'
                        ∧ tasks_ (runner sys' r) ≠ []
                        ∧ length (history sys') = length (history sys0) + fuel).
  { induction fuel as [|fuel IH]; intros sys0 Hflag Hq0; simpl.
    - exists sys0. repeat split; [done|lia].
    - destruct (tasks_ (runner sys0 r)) as [|task rest] eqn:E; [done|].
      rewrite quit_called_ran, Hflag, Hquiet. simpl.
      destruct (IH (ran r task rest sys0)) as (sys' & Hrun & Hq' & Hlen).
      + by rewrite quit_called_ran, Hflag, Hquiet.
      + rewrite tasks_ran, decide_True by done.
        intros Hnil. apply app_eq_nil in Hnil as [_ Hnil]. by apply Hfeed in Hnil.
      + exists sys'. repeat split; [done..|].
        rewrite Hlen, history_ran, length_app. simpl. lia. }
  destruct (H (clear_quit r sys)) as (sys' & Hrun & Hq' & Hlen).
  - apply quit_called_clear_quit.
  - by rewrite tasks_clear_quit.
  - exists sys'. repeat split; done.
Qed.

End WithSemantics.
End RunnerMore.

(** * Facts about [IntegerSenderConnectionImpl] *)
Module ConnectionFacts.
Import Connection RunnerFacts.

(** With [GetSender] at the front of the connection's runner and a
    notification that quits that runner, as [SetUp] installs it, [Run]
    returns right after the message is served, whatever is queued behind
    it.  By then [sender_impl()] is a new sender built from the request of
    the message and from [sender_runner_], with a null echo handler, so
    its [Echo] runs the callback itself. *)
Theorem Run_returns_once_GetSender_is_served
    (null_run : list (RunnerCall ConnectionTask)) fuel (r : RunnerId)
    (sys : System ConnectionTask IntegerSenderConnectionImpl)
    (request : Request) (rest : list ConnectionTask) (notification : Notification) :
  tasks_ (runner sys r) = ServeGetSender request :: rest →
  get_sender_notification_ (world sys) = Some notification →
  quits r notification = true →
  ∃ sys' s,
    Run (run_connection_task null_run) (S fuel) r sys = Returned sys'
    ∧ sender_impl (world sys') = Some s
    ∧ binding_request s = request
    ∧ binding_runner s = sender_runner_ (world sys)
    ∧ (∀ value (callback : nat),
         Echo (sender s) value callback = [InvokeCallback callback value])
    ∧ history sys' = history sys ++ [(r, ServeGetSender request)]
    ∧ tasks_ (runner sys' r) = rest ++ pushes r notification.
Proof.
  intros Hq Hnotification Hquit. unfold Run.
  assert (Hq0 : tasks_ (runner (clear_quit r sys) r) = ServeGetSender request :: rest)
    by (by rewrite tasks_clear_quit).
  assert (Hstep : run_connection_task null_run r (ServeGetSender request)
                    (world (clear_quit r sys))
                  = (notification,
                     {| sender_impl_ := Some (new_SenderType request (sender_runner_ (world sys)));
                        sender_runner_ := sender_runner_ (world sys);
                        get_sender_notification_ := Some notification |})).
  { simpl. by rewrite Hnotification. }
  rewrite (Run_from_front_quits _ fuel r _ _ rest Hq0) by (by rewrite Hstep).
  eexists _, (new_SenderType request (sender_runner_ (world sys))).
  split; [done|]. rewrite world_ran, history_ran, tasks_ran, Hstep.
  rewrite decide_True by done. repeat split.
Qed.

Lemma Run_returns_once_GetSender_is_served_witness :
  ∃ sys' s,
    Run (run_connection_task []) 1 0 awaiting_sender = Returned sys'
    ∧ sender_impl (world sys') = Some s
    ∧ binding_request s = 7
    ∧ binding_runner s = 2
    ∧ tasks_ (runner sys' 0) = [ServeGetSender 8].
Proof.
  destruct (Run_returns_once_GetSender_is_served [] 0 0 awaiting_sender 7
              [ServeGetSender 8] [CallQuit 0])
    as (sys' & s & H1 & H2 & H3 & H4 & _ & _ & H5);
    [vm_compute; reflexivity..|].
  exists sys', s. repeat split; assumption.
Defined.

End ConnectionFacts.

(** * The further facts on closures that only call runners *)
Module MoreScriptFacts.
Import Script Ticker.



Lemma Run_drains_the_queue_then_parks_witness :
  ∃ sys',
    Run run_script 4 0 feeder = Waiting sys'
    ∧ length (history sys') = 2
    ∧ tasks_ (runner sys' 0) = [].
Proof.
  destruct (RunnerMore.Run_drains_the_queue_then_parks run_script 2 0 0 feeder)
    as (sys' & H1 & _ & _ & H2 & H3); [vm_compute; reflexivity..|].
  exists sys'. repeat split; assumption.
Defined.

Lemma RunOneTask_times_runs_the_oldest_tasks_witness :
  ∃ sys' new,
    RunOneTask_times run_script 2 1 0 three_tasks = Returned sys'
    ∧ history sys' = [(0, idle 1); (0, quitter 2 0)]
    ∧ tasks_ (runner sys' 0) = [idle 3] ++ new.
Proof.
  apply (RunnerMore.RunOneTask_times_runs_the_oldest_tasks run_script
           [idle 1; quitter 2 0] [idle 3] 0 0 three_tasks).
  vm_compute. reflexivity.
Defined.


Lemma other_runners_are_left_alone_witness :
  on 1 (history (state_of (Run run_script 4 0 two_runners))) = []
  ∧ [idle 9] `prefix_of` tasks_ (runner (state_of (Run run_script 4 0 two_runners)) 1).
Proof.
  destruct (RunnerMore.other_runners_are_left_alone run_script 4 0 1 two_runners)
    as [[H1 H2] _]; [lia|].
  split; [exact H1|exact H2].
Defined.

Lemma Run_spins_while_tasks_keep_posting_witness :
  ∃ sys',
    Run run_tick 5 0 ticking = OutOfFuel sys'
    ∧ tasks_ (runner sys' 0) ≠ []
    ∧ length (history sys') = 5.
Proof.
  apply (RunnerMore.Run_spins_while_tasks_keep_posting run_tick 5 0 ticking).
  - intros task w. simpl. reflexivity.
  - intros task w. unfold run_tick, pushes. simpl. discriminate.
  - vm_compute. discriminate.
Defined.

End MoreScriptFacts.
